(** * SOP MCP server ([weather_mcp_server.py]): a shallow embedding

    The server answers newline-delimited JSON-RPC requests on standard
    input.  This development embeds the four parts of
    [SOPMCPServer] that the specification speaks about:

    - [cite_validate]: sentence segmentation and citation coverage;
    - [sop_read]: lookup of a section in the context graph;
    - [sop_search]: hybrid BM25 / dense retrieval with fusion;
    - [handle_request] and [run]: the dispatch loop.

    Python strings are modelled by [string]; a character is a code point
    below 256.  Python exceptions are modelled by the [res] type. *)

From Stdlib Require Import QArith.
From stdpp Require Import base option list strings gmap pretty.
From Stdlib Require Import Ascii String Sorted.

Open Scope string_scope.
Open Scope list_scope.

Set Warnings "-register-all".

(** ** Python strings *)

Module Str.

(** [str.isspace] for one character: the code points below 256 that
    CPython classifies as white space.  [str.strip] and the regular
    expression class [\s] both use this predicate. *)
Definition isspace (c : ascii) : bool :=
  let n := nat_of_ascii c in
  (Nat.leb 9 n && Nat.leb n 13) || (Nat.leb 28 n && Nat.leb n 32)
  || Nat.eqb n 133 || Nat.eqb n 160.

(** The character class [[.!?]] of the sentence splitter. *)
Definition is_terminator (c : ascii) : bool :=
  let n := nat_of_ascii c in
  Nat.eqb n 46 || Nat.eqb n 33 || Nat.eqb n 63.

(** [str.lower] on one character (code points below 256). *)
Definition lower_char (c : ascii) : ascii :=
  let n := nat_of_ascii c in
  if (Nat.leb 65 n && Nat.leb n 90)
     || (Nat.leb 192 n && Nat.leb n 222 && negb (Nat.eqb n 215))
  then ascii_of_nat (n + 32) else c.

Fixpoint lower (s : string) : string :=
  match s with
  | EmptyString => EmptyString
  | String c r => String (lower_char c) (lower r)
  end.

(** [s.lstrip()], [s.rstrip()] and [s.strip()]. *)
Fixpoint lstrip (s : string) : string :=
  match s with
  | EmptyString => EmptyString
  | String c r => if isspace c then lstrip r else s
  end.

Fixpoint rstrip (s : string) : string :=
  match s with
  | EmptyString => EmptyString
  | String c r =>
      match rstrip r with
      | EmptyString => if isspace c then EmptyString else String c EmptyString
      | r' => String c r'
      end
  end.

Definition strip (s : string) : string := rstrip (lstrip s).

(** [s.startswith(p)]. *)
Fixpoint startswith (p s : string) : bool :=
  match p, s with
  | EmptyString, _ => true
  | String _ _, EmptyString => false
  | String a p', String b s' => if Ascii.eqb a b then startswith p' s' else false
  end.

(** [a in s]: [a] occurs in [s] as a contiguous substring. *)
Fixpoint contains (a s : string) : bool :=
  startswith a s ||
  match s with
  | EmptyString => false
  | String _ s' => contains a s'
  end.

(** [s[:n]]. *)
Fixpoint take (n : nat) (s : string) : string :=
  match n, s with
  | O, _ => EmptyString
  | S _, EmptyString => EmptyString
  | S n', String c r => String c (take n' r)
  end.

(** [s.split()]: the maximal runs of non-space characters. *)
Fixpoint split_ws_aux (cur : string) (s : string) : list string :=
  match s with
  | EmptyString => match cur with EmptyString => [] | _ => [cur] end
  | String c r =>
      if isspace c
      then match cur with
           | EmptyString => split_ws_aux EmptyString r
           | _ => cur :: split_ws_aux EmptyString r
           end
      else split_ws_aux (cur +:+ String c EmptyString) r
  end.

Definition split_ws (s : string) : list string := split_ws_aux EmptyString s.

(** *** The sentence splitter [re.split(r'(?<=[.!?])\s+', s)]

    A match of the pattern starts at a white-space character that directly
    follows one of [.!?] and extends over the whole run of white space.
    The scanner is either inside a piece, remembering whether the previous
    character was a terminator, or inside a separator. *)
Inductive scan := InPiece (after_terminator : bool) | InSep.

Definition push (c : ascii) (ps : list string) : list string :=
  match ps with
  | [] => [String c EmptyString]
  | p :: ps' => String c p :: ps'
  end.

Fixpoint re_split_from (st : scan) (s : string) : list string :=
  match s with
  | EmptyString => [EmptyString]
  | String c r =>
      match st with
      | InSep =>
          if isspace c then re_split_from InSep r
          else push c (re_split_from (InPiece (is_terminator c)) r)
      | InPiece after =>
          if after && isspace c then EmptyString :: re_split_from InSep r
          else push c (re_split_from (InPiece (is_terminator c)) r)
      end
  end.

Definition re_split (s : string) : list string := re_split_from (InPiece false) s.

End Str.

(** ** Python values and exceptions *)

Module Py.

(** The exception classes the server can meet, with [str(e)]. *)
Inductive exn_kind :=
  AttributeError | TypeError | ValueError | IndexError | NetworkXError.

Record exn := { kind : exn_kind; message : string }.

(** A computation that returns a value or raises. *)
Inductive res (A : Type) :=
| Ok (a : A)
| Raise (e : exn).
Arguments Ok {A} a.
Arguments Raise {A} e.

Definition bind {A B : Type} (m : res A) (k : A -> res B) : res B :=
  match m with
  | Ok a => k a
  | Raise e => Raise e
  end.

Fixpoint mapM {A B : Type} (f : A -> res B) (l : list A) : res (list B) :=
  match l with
  | [] => Ok []
  | x :: l' =>
      bind (f x) (fun y => bind (mapM f l') (fun ys => Ok (y :: ys)))
  end.

(** What [json.loads] returns: [None], [bool], [int], [float], [str],
    [list] and [dict].  No arithmetic is ever done on a decoded float, so
    a float is kept as its [repr].  A [dict] is the list of its items in
    insertion order, with distinct keys. *)
Inductive json :=
| JNull
| JBool (b : bool)
| JInt (z : Z)
| JFloat (repr : string)
| JStr (s : string)
| JArr (items : list json)
| JObj (items : list (string * json)).

Definition type_name (v : json) : string :=
  match v with
  | JNull => "NoneType"
  | JBool _ => "bool"
  | JInt _ => "int"
  | JFloat _ => "float"
  | JStr _ => "str"
  | JArr _ => "list"
  | JObj _ => "dict"
  end.

Definition no_attribute (v : json) (attr : string) : exn :=
  {| kind := AttributeError;
     message := "'" +:+ type_name v +:+ "' object has no attribute '" +:+ attr +:+ "'" |}.

(** Insertion-ordered dictionaries with string keys. *)
Fixpoint dict_get {V : Type} (k : string) (d : list (string * V)) : option V :=
  match d with
  | [] => None
  | (k', v) :: d' => if decide (k = k') then Some v else dict_get k d'
  end.

(** [d[k] = v]: an existing key keeps its position, a new key goes last. *)
Fixpoint dict_set {V : Type} (k : string) (v : V) (d : list (string * V))
  : list (string * V) :=
  match d with
  | [] => [(k, v)]
  | (k', v') :: d' =>
      if decide (k = k') then (k, v) :: d' else (k', v') :: dict_set k v d'
  end.

Definition dict_values {V : Type} (d : list (string * V)) : list V := map snd d.

(** [v.get(key, default)]; only a [dict] has the method. *)
Definition get (v : json) (key : string) (default : json) : res json :=
  match v with
  | JObj d => Ok (match dict_get key d with Some x => x | None => default end)
  | _ => Raise (no_attribute v "get")
  end.

(** [v == s] for a string literal [s]. *)
Definition eq_str (v : json) (s : string) : bool :=
  match v with
  | JStr s' => bool_decide (s' = s)
  | _ => false
  end.

(** A call [v.meth()] of a [str] method on a decoded value. *)
Definition as_str (meth : string) (v : json) : res string :=
  match v with
  | JStr s => Ok s
  | _ => Raise (no_attribute v meth)
  end.

(** A decoded value used as the bound of a slice [l[:k]].  [bool] is a
    subclass of [int].  Every other value is rejected by the slice; [None]
    passes the slices but is rejected by the vector index, and is modelled
    as the same [TypeError]. *)
Definition as_index (v : json) : res Z :=
  match v with
  | JInt z => Ok z
  | JBool b => Ok (if b then 1%Z else 0%Z)
  | _ => Raise {| kind := TypeError;
                  message := "slice indices must be integers or None or have an __index__ method" |}
  end.

(** [l[:k]] for an integer [k]: a negative [k] counts from the end. *)
Definition slice_to {A : Type} (k : Z) (l : list A) : list A :=
  if (0 <=? k)%Z then take (Z.to_nat k) l
  else take (List.length l - Z.to_nat (- k)) l.

End Py.

Export Py.

Notation "x <- m ;; k" := (Py.bind m (fun x => k))
  (at level 100, m at next level, right associativity).

(** ** The resource store

    [doc_meta], [bm25], [faiss_index], [kg] and [model] are loaded once by
    [_load_resources] and only read afterwards.  The opaque library objects
    are represented by the queries the server makes of them. *)

(** An entry of [doc_meta]. *)
Record meta := {
  section_id : string;
  section_name : option string;
  title : option string
}.

(** A node of the context graph [kg]: its attribute dictionary and its
    successors in edge insertion order.  A [networkx.DiGraph] keeps an
    adjacency entry for exactly its nodes, so one map holds both. *)
Record node := {
  attrs : gmap string string;
  succ : list string
}.

(** ** Tool descriptors ([self.tools]) *)

Record property := {
  p_name : string;
  p_type : string;
  p_description : string;
  p_default : option Z;
  p_items : option string
}.

Record tool := {
  name : string;
  description : string;
  properties : list property;
  required : list string
}.

Definition tools : list tool :=
  [ {| name := "sop.search";
       description := "Search SOP documents using hybrid BM25 and dense vector search";
       properties :=
         [ {| p_name := "query"; p_type := "string"; p_description := "Search query";
              p_default := None; p_items := None |};
           {| p_name := "k"; p_type := "integer";
              p_description := "Number of results to return";
              p_default := Some 5%Z; p_items := None |} ];
       required := ["query"] |};
    {| name := "sop.read";
       description := "Read a specific SOP section by section_id";
       properties :=
         [ {| p_name := "section_id"; p_type := "string";
              p_description := "Section ID to read";
              p_default := None; p_items := None |} ];
       required := ["section_id"] |};
    {| name := "web.search";
       description := "Search the web for additional information (requires SERPER_API_KEY)";
       properties :=
         [ {| p_name := "query"; p_type := "string"; p_description := "Search query";
              p_default := None; p_items := None |};
           {| p_name := "k"; p_type := "integer";
              p_description := "Number of results to return";
              p_default := Some 5%Z; p_items := None |} ];
       required := ["query"] |};
    {| name := "cite.validate";
       description := "Validate citation coverage in text";
       properties :=
         [ {| p_name := "text"; p_type := "string";
              p_description := "Text to validate citations for";
              p_default := None; p_items := None |};
           {| p_name := "citations"; p_type := "array";
              p_description := "List of citations";
              p_default := None; p_items := Some "string" |} ];
       required := ["text"; "citations"] |} ].

(** ** Citation coverage: the pure part of [cite_validate] *)

Record detail := {
  sentence : string;
  covered : bool
}.

(** The test of the inner loop:
    [a.lower() in s.lower() or a.startswith("http") and a in s]. *)
Definition anchor_matches (a s : string) : bool :=
  Str.contains (Str.lower a) (Str.lower s)
  || (Str.startswith "http" a && Str.contains a s).

(** [anchors = set(); for c in citations: anchors.add(c)] *)
Definition anchors (citations : list string) : gset string :=
  foldl (fun acc c => acc ∪ {[ c ]}) ∅ citations.

(** The body of [for s in sentences]: the loop over [anchors] stops at the
    first match, so [found] does not depend on the iteration order. *)
Definition coverage (sentences : list string) (anchors : gset string) : list detail :=
  map (fun s => {| sentence := s;
                   covered := existsb (fun a => anchor_matches a s) (elements anchors) |})
      sentences.

(** [sum(1 for c in coverage if c["covered"]) / max(1, len(coverage)) * 100],
    as an exact rational. *)
Definition cov_pct (coverage : list detail) : Q :=
  (inject_Z (Z.of_nat (List.length (filter (fun c => covered c = true) coverage)))
   / inject_Z (Z.of_nat (Nat.max 1 (List.length coverage))) * 100)%Q.

(** ** Payloads, responses and resources

    BM25 and inner-product scores are floating-point numbers.  The server
    only adds, multiplies and compares them, so the score type [F] is kept
    abstract. *)

Section Types.

Variable F : Type.

Record resources := {
  doc_meta : list meta;
  (** [bm25.get_scores(tokens)]: one score per document position. *)
  bm25_get_scores : list string -> list F;
  (** [model.encode], [faiss.normalize_L2] and [faiss_index.search(_, k)]:
      the pairs of [zip(D[0], I[0])]. *)
  faiss_search : string -> Z -> res (list (F * Z));
  kg : gmap string node
}.

(** An entry of [merged]. *)
Record fused := {
  sid : string;
  dense_score : F;
  bm25_score : F
}.

(** An element of [out] before and after the neighbours are added. *)
Record hit := {
  hit_section_id : string;
  hit_excerpt : string;
  hit_dense : F;
  hit_bm25 : F
}.

Record search_item := {
  r_section_id : string;
  excerpt : string;
  dense : F;
  bm25 : F;
  neighbors : list string
}.

Record web_hit := {
  w_title : json;
  w_url : json;
  w_snippet : json
}.

(** The dictionaries handed to [json.dumps(_, indent=2)]. *)
Inductive payload :=
| SearchPayload (query : string) (results : list search_item)
| ReadPayload (sid : string) (text : string) (title sop section : option string)
| ValidatePayload (coverage_pct : Q) (details : list detail)
| WebPayload (query : json) (results : list web_hit) (warning : option string).

(** The [text] of the single content item of a tool result,
    [{"content": [{"type": "text", "text": ...}]}]. *)
Inductive tool_result :=
| Plain (text : string)
| Dumps (p : payload).

Inductive result :=
| ToolsList (tools : list tool)
| ToolCall (r : tool_result)
| Initialize (protocolVersion server_name server_version : string).

Inductive response :=
| Success (id : json) (r : result)
| Failure (id : json) (code : Z) (message : string).

(** A line written to standard output by [print(json.dumps(_))]. *)
Inductive out_line :=
| Notification (method : string) (params : json)
| Reply (r : response).

End Types.

Arguments Build_resources {F} _ _ _ _.
Arguments doc_meta {F} _.
Arguments bm25_get_scores {F} _ _.
Arguments faiss_search {F} _ _ _.
Arguments kg {F} _.
Arguments Build_fused {F} _ _ _.
Arguments sid {F} _.
Arguments dense_score {F} _.
Arguments bm25_score {F} _.
Arguments Build_hit {F} _ _ _ _.
Arguments hit_section_id {F} _.
Arguments hit_excerpt {F} _.
Arguments hit_dense {F} _.
Arguments hit_bm25 {F} _.
Arguments Build_search_item {F} _ _ _ _ _.
Arguments r_section_id {F} _.
Arguments excerpt {F} _.
Arguments dense {F} _.
Arguments bm25 {F} _.
Arguments neighbors {F} _.
Arguments SearchPayload {F} _ _.
Arguments ReadPayload {F} _ _ _ _ _.
Arguments ValidatePayload {F} _ _.
Arguments WebPayload {F} _ _ _.
Arguments Plain {F} _.
Arguments Dumps {F} _.
Arguments ToolsList {F} _.
Arguments ToolCall {F} _.
Arguments Initialize {F} _ _ _.
Arguments Success {F} _ _.
Arguments Failure {F} _ _ _.
Arguments Notification {F} _ _.
Arguments Reply {F} _.

(** ** What the server takes from outside

    The float operations, the library calls and the environment. *)
Class Externals (F : Type) := {
  (** the literals [0.0], [0.7] and [0.3] *)
  f0 : F;
  f0_7 : F;
  f0_3 : F;
  fadd : F -> F -> F;
  fmul : F -> F -> F;
  (** [x < y] *)
  flt : F -> F -> bool;
  (** [np.argsort]: the positions of the scores in ascending order *)
  argsort : list F -> list nat;
  (** [str(v)] of a decoded value inside an f-string *)
  py_format : json -> string;
  (** [json.loads]: the decoded value, or the message of the
      [JSONDecodeError] *)
  json_loads : string -> string + json;
  (** [os.environ.get("SERPER_API_KEY")] *)
  SERPER_API_KEY : option string;
  (** the HTTPS call of [web_search] with its [try]/[except]: the
      [result_data] they produce *)
  serper_request : string -> json -> json -> payload F
}.

(** ** The server *)

Section Server.

Context {F : Type} {E : Externals F}.
Variable R : resources F.

(** *** [web_search] *)
Definition web_search (query k : json) : res (tool_result F) :=
  let disabled :=
    WebPayload query []
      (Some "No SERPER_API_KEY configured; web.search is disabled in this environment.") in
  let result_data :=
    match SERPER_API_KEY with
    | Some key => if bool_decide (key = "") then disabled else serper_request key query k
    | None => disabled
    end in
  Ok (Dumps result_data).

(** *** [cite_validate]

    [text.strip()] needs a [str].  [citations] is iterated: a [list] gives
    its elements, a [str] its characters, a [dict] its keys; every anchor
    must be a [str] for [a.lower()].  A non-string anchor raises when the
    loop reaches it; the model raises in every such case. *)
Definition iter_citations (citations : json) : res (list json) :=
  match citations with
  | JArr l => Ok l
  | JStr s => Ok (map (fun c => JStr (String c EmptyString)) (list_ascii_of_string s))
  | JObj d => Ok (map (fun kv => JStr (fst kv)) d)
  | _ => Raise {| kind := TypeError;
                  message := "'" +:+ type_name citations +:+ "' object is not iterable" |}
  end.

Definition cite_validate (text citations : json) : res (tool_result F) :=
  t <- as_str "strip" text ;;
  let sentences := Str.re_split (Str.strip t) in
  cs <- iter_citations citations ;;
  cs <- mapM (as_str "lower") cs ;;
  let coverage := coverage sentences (anchors cs) in
  Ok (Dumps (ValidatePayload (cov_pct coverage) coverage)).

(** *** [sop_read] *)
Definition not_found (shown : string) : tool_result F :=
  Plain ("Error: section_id '" +:+ shown +:+ "' not found").

Definition sop_read (section_id : json) : res (tool_result F) :=
  match section_id with
  | JStr s =>
      match kg R !! s with
      | None => Ok (not_found s)
      | Some n =>
          (* [if not node]: an empty attribute dictionary is falsy *)
          if bool_decide (attrs n = ∅) then Ok (not_found s)
          else Ok (Dumps (ReadPayload s
                            (match attrs n !! "text" with Some t => t | None => "" end)
                            (attrs n !! "title")
                            (attrs n !! "sop")
                            (attrs n !! "section")))
      end
  | JArr _ | JObj _ =>
      Raise {| kind := TypeError;
               message := "unhashable type: '" +:+ type_name section_id +:+ "'" |}
  | _ => Ok (not_found (py_format section_id))
  end.

(** *** [sop_search] *)

(** The list comprehension building [bm25_candidates]. *)
Fixpoint bm25_cands (bm25_scores : list F) (bm25_top_idx : list nat)
  : res (list (string * F)) :=
  match bm25_top_idx with
  | [] => Ok []
  | i :: rest =>
      match bm25_scores !! i with
      | None => Raise {| kind := IndexError; message := "index out of bounds" |}
      | Some s =>
          if flt f0 s then
            match doc_meta R !! i with
            | None => Raise {| kind := IndexError; message := "list index out of range" |}
            | Some m =>
                tl <- bm25_cands bm25_scores rest ;;
                Ok ((section_id m, s) :: tl)
            end
          else bm25_cands bm25_scores rest
      end
  end.

(** The loop over [zip(D[0], I[0])] building [dense_cands]. *)
Fixpoint dense_candidates (pairs : list (F * Z)) : res (list (string * F)) :=
  match pairs with
  | [] => Ok []
  | (score, idx) :: rest =>
      if (idx <? 0)%Z then dense_candidates rest
      else
        match doc_meta R !! Z.to_nat idx with
        | None => Raise {| kind := IndexError; message := "list index out of range" |}
        | Some m =>
            tl <- dense_candidates rest ;;
            Ok ((section_id m, score) :: tl)
        end
  end.

(** The two loops filling [merged]. *)
Definition merge_dense (dense_cands : list (string * F)) : list (string * fused F) :=
  foldl (fun merged c =>
           dict_set (fst c)
             {| sid := fst c; dense_score := snd c; bm25_score := f0 |} merged)
        [] dense_cands.

Definition merge_bm25 (merged : list (string * fused F))
    (bm25_candidates : list (string * F)) : list (string * fused F) :=
  foldl (fun merged c =>
           match dict_get (fst c) merged with
           | Some e =>
               dict_set (fst c)
                 {| sid := sid e; dense_score := dense_score e; bm25_score := snd c |}
                 merged
           | None =>
               dict_set (fst c)
                 {| sid := fst c; dense_score := f0; bm25_score := snd c |} merged
           end)
        merged bm25_candidates.

Definition merge (dense_cands bm25_candidates : list (string * F))
  : list (string * fused F) :=
  merge_bm25 (merge_dense dense_cands) bm25_candidates.

(** The sort key [x["dense_score"]*0.7 + x["bm25_score"]*0.3]. *)
Definition combined (x : fused F) : F :=
  fadd (fmul (dense_score x) f0_7) (fmul (bm25_score x) f0_3).

(** [sorted(l, key=key, reverse=True)]: a stable sort into descending
    order that compares keys with [<] only. *)
Fixpoint insert_desc {A : Type} (key : A -> F) (x : A) (l : list A) : list A :=
  match l with
  | [] => [x]
  | y :: l' => if flt (key x) (key y) then y :: insert_desc key x l' else x :: l
  end.

Definition sorted_reverse {A : Type} (key : A -> F) (l : list A) : list A :=
  foldr (insert_desc key) [] l.

(** The body of [for r in results[:k]]. *)
Definition make_hit (r : fused F) : hit F :=
  let meta := find (fun m => bool_decide (section_id m = sid r)) (doc_meta R) in
  let excerpt :=
    match meta with
    | Some _ =>
        match kg R !! sid r with
        | Some n =>
            Str.take 300 (match attrs n !! "text" with Some t => t | None => "" end)
        | None => ""
        end
    | None => ""
    end in
  {| hit_section_id := sid r; hit_excerpt := excerpt;
     hit_dense := dense_score r; hit_bm25 := bm25_score r |}.

(** [kg.successors(n)] raises for a node that is not in the graph. *)
Definition successors (n : string) : res (list string) :=
  match kg R !! n with
  | Some nd => Ok (succ nd)
  | None => Raise {| kind := NetworkXError;
                     message := "The node " +:+ n +:+ " is not in the digraph." |}
  end.

(** The body of [for item in out]. *)
Definition add_neighbors (item : hit F) : res (search_item F) :=
  ns <- successors (hit_section_id item) ;;
  Ok {| r_section_id := hit_section_id item; excerpt := hit_excerpt item;
        dense := hit_dense item; bm25 := hit_bm25 item;
        neighbors := take 3 ns |}.

Definition sop_search (query k : json) : res (tool_result F) :=
  q <- as_str "split" query ;;
  let tokens := Str.split_ws q in
  let bm25_scores := bm25_get_scores R tokens in
  k <- as_index k ;;
  let bm25_top_idx := slice_to k (rev (argsort bm25_scores)) in
  bm25_candidates <- bm25_cands bm25_scores bm25_top_idx ;;
  pairs <- faiss_search R q k ;;
  dense_cands <- dense_candidates pairs ;;
  let merged := merge dense_cands bm25_candidates in
  let results := sorted_reverse combined (dict_values merged) in
  let out := map make_hit (slice_to k results) in
  out <- mapM add_neighbors out ;;
  Ok (Dumps (SearchPayload q out)).

(** *** [handle_request] *)

(** The body of the [try] block: the lines it prints and its [result]. *)
Definition dispatch (method params : json) : res (list (out_line F) * result F) :=
  if eq_str method "tools/list" then Ok ([], ToolsList tools)
  else if eq_str method "tools/call" then
    tool_name <- get params "name" JNull ;;
    arguments <- get params "arguments" (JObj []) ;;
    if eq_str tool_name "sop.search" then
      query <- get arguments "query" JNull ;;
      k <- get arguments "k" (JInt 5) ;;
      r <- sop_search query k ;;
      Ok ([], ToolCall r)
    else if eq_str tool_name "sop.read" then
      section_id <- get arguments "section_id" JNull ;;
      r <- sop_read section_id ;;
      Ok ([], ToolCall r)
    else if eq_str tool_name "web.search" then
      query <- get arguments "query" JNull ;;
      k <- get arguments "k" (JInt 5) ;;
      r <- web_search query k ;;
      Ok ([], ToolCall r)
    else if eq_str tool_name "cite.validate" then
      text <- get arguments "text" JNull ;;
      citations <- get arguments "citations" (JArr []) ;;
      r <- cite_validate text citations ;;
      Ok ([], ToolCall r)
    else Raise {| kind := ValueError;
                  message := "Unknown tool: " +:+ py_format tool_name |}
  else if eq_str method "initialize" then
    Ok ([Notification "notifications/initialized" (JObj [])],
        Initialize "2025-03-26" "SOP MCP Server" "1.0.0")
  else Raise {| kind := ValueError;
                message := "Unknown method: " +:+ py_format method |}.

(** The three [request.get] calls come before the [try]: on a decoded
    value that is not a [dict] their exception leaves [handle_request].
    The result is the lines printed while handling and the returned
    response. *)
Definition handle_request (request : json) : res (list (out_line F) * response F) :=
  method <- get request "method" JNull ;;
  params <- get request "params" (JObj []) ;;
  request_id <- get request "id" JNull ;;
  match dispatch method params with
  | Ok (printed, result) => Ok (printed, Success request_id result)
  | Raise e => Ok ([], Failure request_id (-32000) (message e))
  end.

(** *** [run]

    [lines] are the successive results of [sys.stdin.readline]; at end of
    stream [readline] returns the empty string.  The value is what the loop
    writes to standard output.  A [JSONDecodeError] can only come from a
    line that passed the blank test, so its handler always writes.  An
    exception that leaves [handle_request] is reported on standard error by
    the outer handler and ends the loop. *)
Fixpoint run (lines : list string) : list (out_line F) :=
  match lines with
  | [] => []
  | line :: rest =>
      if bool_decide (line = "") || bool_decide (Str.strip line = "") then []
      else
        match json_loads (Str.strip line) with
        | inl msg =>
            Reply (Failure JNull (-32700) ("Parse error: " +:+ msg)) :: run rest
        | inr request =>
            match handle_request request with
            | Ok (printed, response) => printed ++ Reply response :: run rest
            | Raise _ => []
            end
        end
  end.

End Server.

(** ** A small concrete store

    Three sections, scores in [Q].  The graph has a node for ["SOP-001"]
    with attributes, a node for ["SOP-002"] that was only ever mentioned as
    the target of an edge (so it has no attributes), and no node for
    ["SOP-003"]. *)

Module Demo.

Definition qlt (x y : Q) : bool := negb (Qle_bool y x).

(** A stable ascending argsort. *)
Fixpoint insert_asc (scores : list Q) (i : nat) (l : list nat) : list nat :=
  match l with
  | [] => [i]
  | j :: l' =>
      if qlt (nth j scores 0%Q) (nth i scores 0%Q)
      then j :: insert_asc scores i l' else i :: l
  end.

Definition qargsort (scores : list Q) : list nat :=
  foldr (insert_asc scores) [] (seq 0 (List.length scores)).

Definition format (v : json) : string :=
  match v with
  | JStr s => s
  | JNull => "None"
  | JBool true => "True"
  | JBool false => "False"
  | JInt z => pretty z
  | JFloat r => r
  | _ => "..."
  end.

Definition dq : string := String (ascii_of_nat 34) EmptyString.
Definition nl : string := String (ascii_of_nat 10) EmptyString.

(** The text of the request [{"id": 1, "method": "initialize"}]. *)
Definition initialize_line : string :=
  "{" +:+ dq +:+ "id" +:+ dq +:+ ": 1, "
  +:+ dq +:+ "method" +:+ dq +:+ ": " +:+ dq +:+ "initialize" +:+ dq +:+ "}" +:+ nl.

Definition initialize_request : json :=
  JObj [("id", JInt 1); ("method", JStr "initialize")].

(** The text of a [tools/call] of [sop.search] with [{"k": 2}] as
    arguments: the required [query] is missing. *)
Definition search_no_query_line : string :=
  "{" +:+ dq +:+ "id" +:+ dq +:+ ": 7, "
  +:+ dq +:+ "method" +:+ dq +:+ ": " +:+ dq +:+ "tools/call" +:+ dq +:+ ", "
  +:+ dq +:+ "params" +:+ dq +:+ ": {"
  +:+ dq +:+ "name" +:+ dq +:+ ": " +:+ dq +:+ "sop.search" +:+ dq +:+ ", "
  +:+ dq +:+ "arguments" +:+ dq +:+ ": {" +:+ dq +:+ "k" +:+ dq +:+ ": 2}}}" +:+ nl.

Definition search_no_query_request : json :=
  JObj [("id", JInt 7); ("method", JStr "tools/call");
        ("params", JObj [("name", JStr "sop.search");
                         ("arguments", JObj [("k", JInt 2)])])].

(** The text of a [tools/call] of [sop.search] with
    [{"query": "spill", "k": 3}] as arguments. *)
Definition search_spill_line : string :=
  "{" +:+ dq +:+ "id" +:+ dq +:+ ": 9, "
  +:+ dq +:+ "method" +:+ dq +:+ ": " +:+ dq +:+ "tools/call" +:+ dq +:+ ", "
  +:+ dq +:+ "params" +:+ dq +:+ ": {"
  +:+ dq +:+ "name" +:+ dq +:+ ": " +:+ dq +:+ "sop.search" +:+ dq +:+ ", "
  +:+ dq +:+ "arguments" +:+ dq +:+ ": {"
  +:+ dq +:+ "query" +:+ dq +:+ ": " +:+ dq +:+ "spill" +:+ dq +:+ ", "
  +:+ dq +:+ "k" +:+ dq +:+ ": 3}}}" +:+ nl.

Definition search_spill_request : json :=
  JObj [("id", JInt 9); ("method", JStr "tools/call");
        ("params", JObj [("name", JStr "sop.search");
                         ("arguments", JObj [("query", JStr "spill"); ("k", JInt 3)])])].

(** [json.loads] restricted to the request texts above; every other text
    is taken to be malformed. *)
Definition loads (s : string) : string + json :=
  if bool_decide (s = Str.strip initialize_line) then inr initialize_request
  else if bool_decide (s = Str.strip search_no_query_line) then inr search_no_query_request
  else if bool_decide (s = Str.strip search_spill_line) then inr search_spill_request
  else inl "Expecting value: line 1 column 1 (char 0)".

#[global] Instance externals : Externals Q := {|
  f0 := 0%Q;
  f0_7 := (7 # 10)%Q;
  f0_3 := (3 # 10)%Q;
  fadd := Qplus;
  fmul := Qmult;
  flt := qlt;
  argsort := qargsort;
  py_format := format;
  json_loads := loads;
  SERPER_API_KEY := None;
  serper_request := fun _ query _ => WebPayload query [] (Some "Serper returned non-200")
|}.

Definition metas : list meta :=
  [ {| section_id := "SOP-001"; section_name := Some "PROCEDURE"; title := Some "Lockout" |};
    {| section_id := "SOP-002"; section_name := Some "SCOPE"; title := Some "Lockout" |};
    {| section_id := "SOP-003"; section_name := Some "PURPOSE"; title := Some "Spills" |} ].

Definition graph : gmap string node :=
  <[ "SOP-001" := {| attrs := <[ "text" := "Isolate the energy source. Apply the lock." ]>
                                (<[ "title" := "Lockout" ]> ∅);
                     succ := ["SOP-002"] |} ]>
  (<[ "SOP-002" := {| attrs := ∅; succ := [] |} ]> ∅).

(** The lexical scores only know the word [lockout]. *)
Definition lexical (tokens : list string) : list Q :=
  if bool_decide ("lockout" ∈ tokens) then [3 # 2; 0; 0]%Q else [0; 0; 0]%Q.

(** The dense ranking is the same for every query. *)
Definition nearest (q : string) (k : Z) : res (list (Q * Z)) :=
  Ok (take (Z.to_nat k) [(9 # 10, 0%Z); (1 # 2, 1%Z); (1 # 10, 2%Z)]%Q).

Definition store : resources Q :=
  {| doc_meta := metas; bm25_get_scores := lexical;
     faiss_search := nearest; kg := graph |}.

(** What a search for [lockout procedure] with [k = 2] returns. *)
Definition lockout_results : list (search_item Q) :=
  [ {| r_section_id := "SOP-001";
       excerpt := "Isolate the energy source. Apply the lock.";
       dense := (9 # 10)%Q; bm25 := (3 # 2)%Q; neighbors := ["SOP-002"] |};
    {| r_section_id := "SOP-002"; excerpt := "";
       dense := (1 # 2)%Q; bm25 := 0%Q; neighbors := [] |} ].

End Demo.

(** ** Notions used in the statements *)

(** [a] occurs in [s]; [p] starts [s]. *)
Definition is_substring (a s : string) : Prop := exists p q, s = p +:+ a +:+ q.
Definition has_prefix (p s : string) : Prop := exists q, s = p +:+ q.

(** Some [.], [!] or [?] of [s] is directly followed by white space. *)
Fixpoint has_boundary (s : string) : bool :=
  match s with
  | EmptyString => false
  | String c r =>
      match r with
      | EmptyString => false
      | String c' _ => (Str.is_terminator c && Str.isspace c') || has_boundary r
      end
  end.

Fixpoint all_space (s : string) : bool :=
  match s with
  | EmptyString => true
  | String c r => Str.isspace c && all_space r
  end.

(** A separator removed by the splitter: a non-empty run of white space. *)
Definition is_separator (s : string) : Prop := s <> "" /\ all_space s = true.

(** [p0 +:+ s0 +:+ p1 +:+ s1 +:+ ... +:+ pn]: the pieces with the
    separators put back between them. *)
Fixpoint weave (pieces seps : list string) : string :=
  match pieces with
  | [] => ""
  | p :: ps =>
      match ps with
      | [] => p
      | _ :: _ =>
          match seps with
          | [] => p +:+ weave ps []
          | s :: seps' => p +:+ s +:+ weave ps seps'
          end
      end
  end.

(** Descending order of a list under a key compared with [flt]: no element
    has a key below the key of a later element. *)
Definition sorted_desc {F : Type} {E : Externals F} {A : Type}
    (key : A -> F) (l : list A) : Prop :=
  StronglySorted (fun a b => flt (key a) (key b) = false) l.

(** The combined score of a returned item, from its two recorded scores. *)
Definition item_score {F : Type} {E : Externals F} (r : search_item F) : F :=
  fadd (fmul (dense r) f0_7) (fmul (bm25 r) f0_3).

(** The last score recorded for [s] in a candidate list. *)
Fixpoint last_score {F : Type} (s : string) (l : list (string * F)) : option F :=
  match l with
  | [] => None
  | (s', x) :: l' =>
      match last_score s l' with
      | Some y => Some y
      | None => if decide (s = s') then Some x else None
      end
  end.

(** The entries of [merged] that carry section id [s]. *)
Definition entries_for {F : Type} (s : string) (merged : list (string * fused F))
  : list (fused F) :=
  filter (fun e => sid e = s) (dict_values merged).

(** ** The rest of the server *)

Section Lookup.

Context {F : Type}.
Variable R : resources F.

(** [_get_section_text]: the first entry of [doc_meta] with the given
    section id, with its [section_name] and [title]. *)
Definition _get_section_text (sid : string)
  : option meta * option string * option string :=
  match find (fun m => bool_decide (section_id m = sid)) (doc_meta R) with
  | Some m => (Some m, section_name m, title m)
  | None => (None, None, None)
  end.

End Lookup.

(** *** Startup: [_load_resources] and [main]

    The files on disk are represented by what loading them gives: the
    loaded object, or the message of the exception the loader raises.
    [Bm25], [Index] and [Model] are the types of the opaque library
    objects; [get_scores] and [search] are the queries the server makes of
    them. *)
Section Startup.

Context {F : Type} {E : Externals F}.
Variables Bm25 Index Model : Type.
Variable get_scores : Bm25 -> list string -> list F.
Variable search : Model -> Index -> string -> Z -> res (list (F * Z)).

Record artifacts := {
  (** [os.path.exists(FAISS_PATH)] *)
  faiss_path_exists : bool;
  (** [pickle.load] of [doc_meta.pkl] *)
  load_doc_meta : string + list meta;
  (** [faiss.read_index(FAISS_PATH)] *)
  read_index : string + Index;
  (** [pickle.load] of [bm25.pkl] *)
  load_bm25 : string + Bm25;
  (** [gpickle.read_gpickle(KG_PATH)] *)
  read_gpickle : string + gmap string node;
  (** [SentenceTransformer(MODEL_NAME)] *)
  load_model : string + Model
}.

(** The message of the [RuntimeError], or the loaded resources. *)
Definition _load_resources (a : artifacts) : string + resources F :=
  if negb (faiss_path_exists a) then inl "Indices not built. Run indexer.py first."
  else
    let failed (e : string) : string + resources F :=
      inl ("Failed to load resources: " +:+ e) in
    match load_doc_meta a with
    | inl e => failed e
    | inr doc_meta =>
        match read_index a with
        | inl e => failed e
        | inr faiss_index =>
            match load_bm25 a with
            | inl e => failed e
            | inr bm25 =>
                match read_gpickle a with
                | inl e => failed e
                | inr kg =>
                    match load_model a with
                    | inl e => failed e
                    | inr model =>
                        inr {| doc_meta := doc_meta;
                               bm25_get_scores := get_scores bm25;
                               faiss_search := search model faiss_index;
                               kg := kg |}
                    end
                end
            end
        end
    end.

(** [main]: the constructor loads the resources; its [RuntimeError] ends
    the process before [run] is reached.  The value is what is written to
    standard output. *)
Definition main (a : artifacts) (lines : list string) : list (out_line F) :=
  match _load_resources a with
  | inl _ => []
  | inr R => run R lines
  end.

End Startup.

Arguments faiss_path_exists {Bm25 Index Model} _.
Arguments load_doc_meta {Bm25 Index Model} _.
Arguments read_index {Bm25 Index Model} _.
Arguments load_bm25 {Bm25 Index Model} _.
Arguments read_gpickle {Bm25 Index Model} _.
Arguments load_model {Bm25 Index Model} _.

(** *** More concrete data

    A second decoder that also knows a JSON list, a store whose graph has
    a node for every section, a store whose vector index is longer than the
    document table, and the artifacts that load the first store. *)

Module More.

Definition loads (s : string) : string + json :=
  if bool_decide (s = "[1, 2]") then inr (JArr [JInt 1; JInt 2])
  else Demo.loads s.

Definition externals : Externals Q := {|
  f0 := 0%Q;
  f0_7 := (7 # 10)%Q;
  f0_3 := (3 # 10)%Q;
  fadd := Qplus;
  fmul := Qmult;
  flt := Demo.qlt;
  argsort := Demo.qargsort;
  py_format := Demo.format;
  json_loads := loads;
  SERPER_API_KEY := Some "";
  serper_request := fun _ query _ => WebPayload query [] (Some "Serper returned non-200")
|}.

Definition full_graph : gmap string node :=
  <[ "SOP-003" := {| attrs := <[ "text" := "Contain the spill." ]> ∅; succ := [] |} ]>
  Demo.graph.

Definition full_store : resources Q :=
  {| doc_meta := Demo.metas; bm25_get_scores := Demo.lexical;
     faiss_search := Demo.nearest; kg := full_graph |}.

(** An index built from more documents than the table holds. *)
Definition stale_nearest (q : string) (k : Z) : res (list (Q * Z)) :=
  Ok [(9 # 10, 0%Z); (1 # 2, 7%Z)]%Q.

Definition stale_store : resources Q :=
  {| doc_meta := Demo.metas; bm25_get_scores := Demo.lexical;
     faiss_search := stale_nearest; kg := full_graph |}.

(** The loaded objects are represented by their query functions. *)
Definition on_disk
  : artifacts (list string -> list Q) unit (string -> Z -> res (list (Q * Z))) :=
  {| faiss_path_exists := true;
     load_doc_meta := inr Demo.metas;
     read_index := inr tt;
     load_bm25 := inr Demo.lexical;
     read_gpickle := inr Demo.graph;
     load_model := inr Demo.nearest |}.

Definition not_built
  : artifacts (list string -> list Q) unit (string -> Z -> res (list (Q * Z))) :=
  {| faiss_path_exists := false;
     load_doc_meta := inr Demo.metas;
     read_index := inl "No such file or directory";
     load_bm25 := inr Demo.lexical;
     read_gpickle := inr Demo.graph;
     load_model := inr Demo.nearest |}.

(** A fused dictionary of three sections. *)
Definition fused_three : list (string * fused Q) :=
  merge (E:=Demo.externals)
    [("SOP-001", (9 # 10)%Q); ("SOP-002", (1 # 2)%Q)] [("SOP-003", (5 # 1)%Q)].

Definition start (a : artifacts (list string -> list Q) unit
                                (string -> Z -> res (list (Q * Z))))
    (lines : list string) : list (out_line Q) :=
  main (E:=Demo.externals) _ _ _ (fun b => b) (fun m _ => m) a lines.

End More.

(** *** More notions used in the statements *)

(** The responses among the lines written to standard output. *)
Definition replies {F : Type} (out : list (out_line F)) : list (response F) :=
  omap (fun l => match l with Reply r => Some r | Notification _ _ => None end) out.

Definition response_id {F : Type} (r : response F) : json :=
  match r with
  | Success id _ => id
  | Failure id _ _ => id
  end.

(** The last character of [s] is one of [.!?]. *)
Fixpoint ends_with_terminator (s : string) : bool :=
  match s with
  | EmptyString => false
  | String c r =>
      match r with
      | EmptyString => Str.is_terminator c
      | String _ _ => ends_with_terminator r
      end
  end.

(** [P] holds of every element of the list except the last one. *)
Fixpoint all_but_last {A : Type} (P : A -> Prop) (l : list A) : Prop :=
  match l with
  | [] => True
  | x :: l' =>
      match l' with
      | [] => True
      | _ :: _ => P x /\ all_but_last P l'
      end
  end.

(** The last character of [s] is white space. *)
Fixpoint ends_with_space (s : string) : bool :=
  match s with
  | EmptyString => false
  | String c r =>
      match r with
      | EmptyString => Str.isspace c
      | String _ _ => ends_with_space r
      end
  end.

(** * Properties *)

(** ** Strings *)

Lemma append_cons (c : ascii) (s t : string) : String c s +:+ t = String c (s +:+ t).
Proof. reflexivity. Qed.

Lemma append_nil_l (t : string) : "" +:+ t = t.
Proof. reflexivity. Qed.

Ltac str_simpl :=
  repeat (rewrite append_cons in * || rewrite append_nil_l in * ).

Lemma append_nil_r (s : string) : s +:+ "" = s.
Proof. induction s as [|c s IH]; str_simpl; [reflexivity | now rewrite IH]. Qed.

Lemma append_assoc (a b c : string) : (a +:+ b) +:+ c = a +:+ b +:+ c.
Proof. induction a as [|x a IH]; str_simpl; [reflexivity | now rewrite IH]. Qed.

Lemma startswith_spec (p s : string) :
  Str.startswith p s = true <-> has_prefix p s.
Proof.
  revert s. induction p as [|a p IH]; intros s; simpl.
  - split; [intros _; now exists s | reflexivity].
  - destruct s as [|b s].
    + split; [discriminate | intros [q Hq]; discriminate].
    + destruct (Ascii.eqb_spec a b) as [->|Hne].
      * rewrite IH. split; intros [q Hq]; exists q; str_simpl.
        -- now rewrite Hq.
        -- now inversion Hq.
      * split; [discriminate | intros [q Hq]]. str_simpl. inversion Hq. congruence.
Qed.

Lemma contains_spec (a s : string) :
  Str.contains a s = true <-> is_substring a s.
Proof.
  induction s as [|c s IH]; simpl.
  - rewrite orb_false_r, startswith_spec. split.
    + intros [q Hq]. exists "", q. exact Hq.
    + intros [p [q Hq]]. destruct p; [now exists q | discriminate].
  - rewrite orb_true_iff, startswith_spec, IH. split.
    + intros [[q Hq] | [p [q Hq]]].
      * exists "", q. exact Hq.
      * exists (String c p), q. str_simpl. now rewrite Hq.
    + intros [p [q Hq]]. destruct p as [|c' p].
      * left. now exists q.
      * right. str_simpl. inversion Hq. now exists p, q.
Qed.

Lemma lower_empty (a : string) : Str.lower a = "" <-> a = "".
Proof. destruct a; simpl; split; congruence. Qed.

Lemma contains_empty_r (a : string) : Str.contains a "" = true <-> a = "".
Proof. destruct a; simpl; split; congruence. Qed.

Lemma re_split_from_nonempty (st : Str.scan) (s : string) :
  Str.re_split_from st s <> [].
Proof.
  revert st. induction s as [|c s IH]; intros st; simpl; [discriminate|].
  destruct st as [b|].
  - destruct (b && Str.isspace c); [discriminate|].
    specialize (IH (Str.InPiece (Str.is_terminator c))).
    destruct (Str.re_split_from _ s); [congruence | discriminate].
  - destruct (Str.isspace c); [apply IH|].
    specialize (IH (Str.InPiece (Str.is_terminator c))).
    destruct (Str.re_split_from _ s); [congruence | discriminate].
Qed.

Lemma push_length (c : ascii) (ps : list string) :
  ps <> [] -> List.length (Str.push c ps) = List.length ps.
Proof. destruct ps; [congruence | reflexivity]. Qed.

Lemma weave_push (c : ascii) (ps seps : list string) :
  ps <> [] -> weave (Str.push c ps) seps = String c (weave ps seps).
Proof.
  destruct ps as [|p ps]; [congruence|]. intros _. simpl.
  destruct ps; [reflexivity|]. destruct seps; reflexivity.
Qed.

Lemma weave_cons_sep (p sep : string) (ps seps : list string) :
  ps <> [] -> weave (p :: ps) (sep :: seps) = p +:+ sep +:+ weave ps seps.
Proof. destruct ps; [congruence | reflexivity]. Qed.

(** The splitter only removes separators: inside a piece the pieces and
    the removed runs rebuild the input; inside a separator they rebuild it
    up to the rest of the current run. *)
Lemma re_split_from_weave (s : string) :
  (forall b, exists seps,
      S (List.length seps) = List.length (Str.re_split_from (Str.InPiece b) s) /\
      Forall is_separator seps /\
      weave (Str.re_split_from (Str.InPiece b) s) seps = s) /\
  (exists w seps,
      all_space w = true /\
      S (List.length seps) = List.length (Str.re_split_from Str.InSep s) /\
      Forall is_separator seps /\
      w +:+ weave (Str.re_split_from Str.InSep s) seps = s).
Proof.
  induction s as [|c s [IHp IHs]].
  - split; [intros b; exists [] | exists "", []]; simpl; auto.
  - assert (Hpush : exists seps,
      S (List.length seps)
        = List.length (Str.push c (Str.re_split_from (Str.InPiece (Str.is_terminator c)) s)) /\
      Forall is_separator seps /\
      weave (Str.push c (Str.re_split_from (Str.InPiece (Str.is_terminator c)) s)) seps
        = String c s).
    { destruct (IHp (Str.is_terminator c)) as (seps & Hlen & Hsep & Hw).
      exists seps. pose proof (re_split_from_nonempty (Str.InPiece (Str.is_terminator c)) s) as Hne.
      rewrite weave_push by exact Hne. rewrite Hw. repeat split; auto.
      now rewrite push_length. }
    split.
    + intros b. simpl. destruct (b && Str.isspace c) eqn:Hb; [|exact Hpush].
      destruct IHs as (w & seps & Hw & Hlen & Hsep & Heq).
      apply andb_true_iff in Hb as [_ Hc].
      exists (String c w :: seps). repeat split.
      * simpl. now rewrite Hlen.
      * constructor; [|exact Hsep]. split; [discriminate|]. simpl. now rewrite Hc, Hw.
      * rewrite weave_cons_sep by apply re_split_from_nonempty.
        rewrite append_nil_l, append_cons. now rewrite Heq.
    + simpl. destruct (Str.isspace c) eqn:Hc.
      * destruct IHs as (w & seps & Hw & Hlen & Hsep & Heq).
        exists (String c w), seps. repeat split; auto.
        -- simpl. now rewrite Hc, Hw.
        -- rewrite append_cons. now rewrite Heq.
      * destruct Hpush as (seps & Hlen & Hsep & Heq).
        exists "", seps. repeat split; auto.
Qed.

Lemma re_split_from_no_boundary (s : string) (b : bool) :
  has_boundary s = false ->
  (b = true -> match s with String c _ => Str.isspace c = false | EmptyString => True end) ->
  Str.re_split_from (Str.InPiece b) s = [s].
Proof.
  revert b. induction s as [|c s IH]; intros b Hnb Hfirst; [reflexivity|].
  simpl. assert (Hb : b && Str.isspace c = false).
  { destruct b; [|reflexivity]. simpl. now apply Hfirst. }
  rewrite Hb. rewrite IH; [reflexivity | |].
  - simpl in Hnb. destruct s; [reflexivity|]. now apply orb_false_iff in Hnb.
  - intros Ht. simpl in Hnb. destruct s as [|c' s']; [exact I|].
    apply orb_false_iff in Hnb as [Hnb _]. rewrite Ht in Hnb. exact Hnb.
Qed.

Lemma has_boundary_lstrip (s : string) :
  has_boundary s = false -> has_boundary (Str.lstrip s) = false.
Proof.
  induction s as [|c s IH]; intros H; [reflexivity|].
  simpl. destruct (Str.isspace c); [|exact H].
  apply IH. simpl in H. destruct s; [reflexivity|]. now apply orb_false_iff in H.
Qed.

Lemma rstrip_head (s : string) (c : ascii) (r : string) :
  Str.rstrip s = String c r -> exists r', s = String c r'.
Proof.
  destruct s as [|c0 s]; simpl; [discriminate|].
  destruct (Str.rstrip s).
  - destruct (Str.isspace c0); [discriminate|]. intros H; inversion H; eauto.
  - intros H; inversion H; eauto.
Qed.

Lemma has_boundary_rstrip (s : string) :
  has_boundary s = false -> has_boundary (Str.rstrip s) = false.
Proof.
  induction s as [|c s IH]; intros H; [reflexivity|].
  assert (Hs : has_boundary s = false).
  { simpl in H. destruct s; [reflexivity|]. now apply orb_false_iff in H. }
  specialize (IH Hs). simpl.
  destruct (Str.rstrip s) as [|c' r'] eqn:Hr.
  - destruct (Str.isspace c); reflexivity.
  - destruct (rstrip_head _ _ _ Hr) as [r'' ->].
    simpl in H. apply orb_false_iff in H as [H _].
    change (has_boundary (String c (String c' r')))
      with ((Str.is_terminator c && Str.isspace c') || has_boundary (String c' r')).
    now rewrite H, IH.
Qed.

Lemma has_boundary_strip (s : string) :
  has_boundary s = false -> has_boundary (Str.strip s) = false.
Proof. intros H. now apply has_boundary_rstrip, has_boundary_lstrip. Qed.

(** ** Citation coverage *)

Lemma mapM_as_str (meth : string) (cs : list string) :
  mapM (as_str meth) (map JStr cs) = Ok cs.
Proof. induction cs as [|c cs IH]; simpl; [reflexivity | now rewrite IH]. Qed.

Lemma elem_of_anchors (a : string) (citations : list string) :
  a ∈ anchors citations <-> a ∈ citations.
Proof.
  unfold anchors.
  assert (H : forall acc : gset string,
             a ∈ foldl (fun acc c => acc ∪ {[ c ]}) acc citations
             <-> a ∈ acc \/ a ∈ citations).
  { induction citations as [|c cs IH]; intros acc; simpl.
    - rewrite elem_of_nil. tauto.
    - rewrite IH, elem_of_union, elem_of_singleton, elem_of_cons. tauto. }
  rewrite H. rewrite elem_of_empty. tauto.
Qed.

Lemma anchor_matches_spec (a s : string) :
  anchor_matches a s = true <->
  is_substring (Str.lower a) (Str.lower s) \/ (has_prefix "http" a /\ is_substring a s).
Proof.
  unfold anchor_matches.
  now rewrite orb_true_iff, andb_true_iff, !contains_spec, startswith_spec.
Qed.

Lemma anchor_matches_empty (a : string) : anchor_matches a "" = true <-> a = "".
Proof.
  unfold anchor_matches. rewrite orb_true_iff, andb_true_iff.
  change (Str.lower "") with "". rewrite !contains_empty_r, lower_empty. split.
  - intros [H | [_ H]]; exact H.
  - intros ->. now left.
Qed.

Lemma covered_spec (sentences : list string) (citations : list string) (d : detail) :
  d ∈ coverage sentences (anchors citations) ->
  (covered d = true <-> exists a, a ∈ citations /\ anchor_matches a (sentence d) = true).
Proof.
  unfold coverage. intros Hd. apply list_elem_of_In, in_map_iff in Hd as (s & <- & _).
  simpl. rewrite existsb_exists. split.
  - intros (a & Ha & Hm). exists a. split; [|exact Hm].
    now apply elem_of_anchors, elem_of_elements, list_elem_of_In.
  - intros (a & Ha & Hm). exists a. split; [|exact Hm].
    now apply list_elem_of_In, elem_of_elements, elem_of_anchors.
Qed.

Lemma coverage_sentences (sentences : list string) (anchors : gset string) :
  map sentence (coverage sentences anchors) = sentences.
Proof.
  unfold coverage. rewrite map_map. simpl. apply map_id.
Qed.

Section CiteValidate.

Context {F : Type}.

Lemma cite_validate_strings (text : string) (citations : list string) :
  cite_validate (F:=F) (JStr text) (JArr (map JStr citations)) =
  let cov := coverage (Str.re_split (Str.strip text)) (anchors citations) in
  Ok (Dumps (ValidatePayload (cov_pct cov) cov)).
Proof. unfold cite_validate. simpl. now rewrite mapM_as_str. Qed.

(** C6.  For a text and a list of citation strings, [cite_validate]
    returns one detail per sentence of the split text, in the order of the
    sentences, and a detail is covered exactly when some citation has its
    lowercase form inside the lowercase sentence, or starts with [http]
    and occurs unchanged in the sentence. *)
Theorem validate_covered_iff_anchor (text : string) (citations : list string) :
  exists pct details,
    cite_validate (F:=F) (JStr text) (JArr (map JStr citations))
      = Ok (Dumps (ValidatePayload pct details)) /\
    map sentence details = Str.re_split (Str.strip text) /\
    forall d, d ∈ details ->
      (covered d = true <->
       exists a, a ∈ citations /\
         (is_substring (Str.lower a) (Str.lower (sentence d)) \/
          (has_prefix "http" a /\ is_substring a (sentence d)))).
Proof.
  rewrite cite_validate_strings. simpl. eexists _, _. split; [reflexivity|].
  split; [apply coverage_sentences|].
  intros d Hd. rewrite (covered_spec _ _ _ Hd).
  split; intros (a & Ha & Hm); exists a; (split; [exact Ha|]);
    now apply anchor_matches_spec.
Qed.

(** C3, as the code has it.  On the empty text [cite_validate] returns
    exactly one detail, whose sentence is the empty string.  The detail is
    covered exactly when the empty string is one of the citations; the
    coverage is 0 when it is not and 100 when it is.  Nothing is raised. *)
Theorem validate_empty_text_one_entry (citations : list string) :
  exists pct d,
    cite_validate (F:=F) (JStr "") (JArr (map JStr citations))
      = Ok (Dumps (ValidatePayload pct [d])) /\
    sentence d = "" /\
    (covered d = true <-> "" ∈ citations) /\
    ("" ∉ citations -> pct == 0)%Q /\
    ("" ∈ citations -> pct == 100)%Q.
Proof.
  rewrite cite_validate_strings.
  change (Str.re_split (Str.strip "")) with [""]. simpl.
  set (d := {| sentence := "";
               covered := existsb (fun a => anchor_matches a "") (elements (anchors citations)) |}).
  assert (Hcov : covered d = true <-> "" ∈ citations).
  { rewrite (covered_spec [""] citations d).
    - split.
      + intros (a & Ha & Hm). apply anchor_matches_empty in Hm. now subst a.
      + intros H. exists "". split; [exact H | now apply anchor_matches_empty].
    - unfold coverage. simpl. apply list_elem_of_singleton. reflexivity. }
  exists (cov_pct [d]), d. split; [reflexivity|]. split; [reflexivity|].
  split; [exact Hcov|]. unfold cov_pct.
  destruct (covered d) eqn:Hc.
  - split; [intros Hn; exfalso; apply Hn; now apply Hcov|].
    intros _. rewrite filter_cons_True by exact Hc. reflexivity.
  - split; [|intros Hin; apply Hcov in Hin; discriminate].
    intros _. rewrite filter_cons_False by (rewrite Hc; discriminate). reflexivity.
Qed.

(** C10, as the code has it.  A text in which no [.], [!] or [?] is
    directly followed by white space gives exactly one detail, whose
    sentence is the stripped text.  In general the sentences, with a
    non-empty run of white space put back between each two neighbours,
    rebuild the stripped text: the splitter drops the white space that
    separates sentences and nothing else. *)
Theorem validate_sentences_rebuild_text (text : string) (citations : list string) :
  exists pct details,
    cite_validate (F:=F) (JStr text) (JArr (map JStr citations))
      = Ok (Dumps (ValidatePayload pct details)) /\
    (has_boundary text = false ->
     exists d, details = [d] /\ sentence d = Str.strip text) /\
    exists seps,
      S (List.length seps) = List.length details /\
      Forall is_separator seps /\
      weave (map sentence details) seps = Str.strip text.
Proof.
  rewrite cite_validate_strings. simpl. eexists _, _. split; [reflexivity|]. split.
  - intros Hnb. unfold Str.re_split.
    rewrite re_split_from_no_boundary;
      [| now apply has_boundary_strip | discriminate].
    simpl. eexists. split; reflexivity.
  - rewrite coverage_sentences.
    destruct (re_split_from_weave (Str.strip text)) as [H _].
    destruct (H false) as (seps & Hlen & Hsep & Hw).
    exists seps. unfold coverage. rewrite length_map. auto.
Qed.

End CiteValidate.

(** ** Section reader and dispatcher *)

Section Dispatcher.

Context {F : Type} {E : Externals F}.
Variable R : resources F.

(** C7, as the code has it.  For a section id that is absent from the
    graph, or whose node has an empty attribute dictionary, [sop_read]
    returns a successful result whose text says that the id was not found.
    For a node with at least one attribute it returns the id with the
    node's [text] (the empty string when the node has none), [title], [sop]
    and [section]. *)
Theorem read_found_iff_node_has_attributes (s : string) :
  (kg R !! s = None -> sop_read R (JStr s) = Ok (not_found s)) /\
  (forall n, kg R !! s = Some n -> attrs n = ∅ ->
     sop_read R (JStr s) = Ok (not_found s)) /\
  (forall n, kg R !! s = Some n -> attrs n <> ∅ ->
     sop_read R (JStr s) =
       Ok (Dumps (ReadPayload s (default "" (attrs n !! "text"))
                    (attrs n !! "title") (attrs n !! "sop") (attrs n !! "section")))).
Proof.
  unfold sop_read. repeat split.
  - intros ->. reflexivity.
  - intros n -> Hn. now rewrite bool_decide_eq_true_2.
  - intros n -> Hn. rewrite bool_decide_eq_false_2 by exact Hn.
    now destruct (attrs n !! "text").
Qed.

Lemma not_blank (line : string) :
  Str.strip line <> "" ->
  bool_decide (line = "") || bool_decide (Str.strip line = "") = false.
Proof.
  intros H. rewrite (bool_decide_eq_false_2 (Str.strip line = "")) by exact H.
  rewrite bool_decide_eq_false_2; [reflexivity|]. intros ->. now apply H.
Qed.

Lemma handle_request_dict (d : list (string * json)) :
  handle_request R (JObj d) =
  match dispatch R (default JNull (dict_get "method" d))
                   (default (JObj []) (dict_get "params" d)) with
  | Ok (printed, result) =>
      Ok (printed, Success (default JNull (dict_get "id" d)) result)
  | Raise e => Ok ([], Failure (default JNull (dict_get "id" d)) (-32000) (message e))
  end.
Proof.
  unfold handle_request, get. simpl.
  destruct (dict_get "method" d), (dict_get "params" d), (dict_get "id" d); reflexivity.
Qed.

(** C1, as the code has it.  A request whose method is [initialize]
    makes the loop write exactly two lines: first the notification
    [notifications/initialized] with empty parameters and no id, then the
    response.  The notification is written before the response, not after
    it. *)
Theorem initialize_notification_precedes_response
    (line : string) (rest : list string) (d : list (string * json)) :
  Str.strip line <> "" ->
  json_loads (Str.strip line) = inr (JObj d) ->
  dict_get "method" d = Some (JStr "initialize") ->
  run R (line :: rest) =
    Notification "notifications/initialized" (JObj []) ::
    Reply (Success (default JNull (dict_get "id" d))
             (Initialize "2025-03-26" "SOP MCP Server" "1.0.0")) ::
    run R rest.
Proof.
  intros Hline Hloads Hmethod. simpl.
  rewrite (not_blank _ Hline), Hloads, handle_request_dict, Hmethod.
  reflexivity.
Qed.


(** C9.  A [tools/call] of [sop.search] whose arguments have no [query]
    is not checked against the input schema: [sop_search] is called with
    [None] as query and raises; the response is an error with code -32000
    that echoes the request id, and the loop goes on with the next line. *)
Theorem search_without_query_is_handler_error
    (line : string) (rest : list string)
    (d params arguments : list (string * json)) :
  Str.strip line <> "" ->
  json_loads (Str.strip line) = inr (JObj d) ->
  dict_get "method" d = Some (JStr "tools/call") ->
  dict_get "params" d = Some (JObj params) ->
  dict_get "name" params = Some (JStr "sop.search") ->
  default (JObj []) (dict_get "arguments" params) = JObj arguments ->
  dict_get "query" arguments = None ->
  (forall k, sop_search R JNull k = Raise (no_attribute JNull "split")) /\
  handle_request R (JObj d) =
    Ok ([], Failure (default JNull (dict_get "id" d)) (-32000)
              "'NoneType' object has no attribute 'split'") /\
  run R (line :: rest) =
    Reply (Failure (default JNull (dict_get "id" d)) (-32000)
             "'NoneType' object has no attribute 'split'") :: run R rest.
Proof.
  intros Hline Hloads Hmethod Hparams Hname Hargs Hquery.
  assert (Hh : handle_request R (JObj d) =
    Ok ([], Failure (default JNull (dict_get "id" d)) (-32000)
              "'NoneType' object has no attribute 'split'")).
  { rewrite handle_request_dict, Hmethod, Hparams. simpl.
    unfold dispatch. simpl. rewrite Hname. simpl.
    destruct (dict_get "arguments" params) as [a|]; simpl in Hargs; subst; simpl.
    - rewrite Hquery. simpl. now destruct (dict_get "k" arguments).
    - injection Hargs as <-. reflexivity. }
  repeat split.
  - exact Hh.
  - simpl. now rewrite (not_blank _ Hline), Hloads, Hh.
Qed.

End Dispatcher.

(** ** Insertion-ordered dictionaries *)

Section Dict.

Context {V : Type}.
Implicit Types (d : list (string * V)) (k : string) (v : V).

Lemma dict_get_set_eq k v d : dict_get k (dict_set k v d) = Some v.
Proof.
  induction d as [|[k' v'] d IH]; simpl.
  - destruct (decide (k = k)); congruence.
  - destruct (decide (k = k')) as [->|Hne]; simpl.
    + destruct (decide (k' = k')); congruence.
    + destruct (decide (k = k')); congruence.
Qed.

Lemma dict_get_set_ne k k' v d :
  k <> k' -> dict_get k' (dict_set k v d) = dict_get k' d.
Proof.
  intros Hne. induction d as [|[k0 v0] d IH]; simpl.
  - destruct (decide (k' = k)); congruence.
  - destruct (decide (k = k0)) as [->|Hne0]; simpl.
    + destruct (decide (k' = k0)); congruence.
    + now rewrite IH.
Qed.

Lemma dict_get_None k d : dict_get k d = None <-> k ∉ map fst d.
Proof.
  induction d as [|[k' v'] d IH]; simpl.
  - rewrite elem_of_nil. tauto.
  - rewrite not_elem_of_cons. destruct (decide (k = k')) as [->|Hne].
    + split; [discriminate | intros [H _]; congruence].
    + rewrite IH. tauto.
Qed.

Lemma dict_set_keys k v d :
  map fst (dict_set k v d) =
  if decide (k ∈ map fst d) then map fst d else map fst d ++ [k].
Proof.
  induction d as [|[k' v'] d IH]; simpl.
  - destruct (decide (k ∈ [])) as [Hin|_]; [|reflexivity].
    now apply elem_of_nil in Hin.
  - destruct (decide (k = k')) as [->|Hne]; simpl.
    + destruct (decide (k' ∈ k' :: map fst d)) as [_|Hnin]; [reflexivity|].
      exfalso. apply Hnin, elem_of_cons. now left.
    + rewrite IH. destruct (decide (k ∈ map fst d)) as [Hin|Hnin];
        destruct (decide (k ∈ k' :: map fst d)) as [Hin'|Hnin']; try reflexivity.
      * exfalso. apply Hnin', elem_of_cons. now right.
      * exfalso. apply elem_of_cons in Hin' as [?|?]; congruence.
Qed.

Lemma dict_set_NoDup k v d : NoDup (map fst d) -> NoDup (map fst (dict_set k v d)).
Proof.
  intros Hd. rewrite dict_set_keys. destruct (decide (k ∈ map fst d)) as [Hin|Hnin].
  - exact Hd.
  - apply NoDup_app. repeat split.
    + exact Hd.
    + intros x Hx Hx'. apply list_elem_of_singleton in Hx'. now subst.
    + apply NoDup_singleton.
Qed.

Lemma dict_set_Forall (P : string * V -> Prop) k v d :
  P (k, v) -> Forall P d -> Forall P (dict_set k v d).
Proof.
  intros Hkv. induction 1 as [|[k' v'] d Hx Hd IH]; simpl.
  - now constructor.
  - destruct (decide (k = k')); constructor; auto.
Qed.

End Dict.

(** ** Fusion *)

Section Fusion.

Context {F : Type} {E : Externals F}.

(** The invariant of [merged]: distinct keys, each entry filed under its
    own section id. *)
Definition well_keyed (m : list (string * fused F)) : Prop :=
  NoDup (map fst m) /\ Forall (fun kv => sid (snd kv) = fst kv) m.

Lemma well_keyed_set (k : string) (v : fused F) (m : list (string * fused F)) :
  sid v = k -> well_keyed m -> well_keyed (dict_set k v m).
Proof.
  intros Hk [Hnd Hall]. split.
  - now apply dict_set_NoDup.
  - now apply dict_set_Forall.
Qed.

Lemma well_keyed_get (k : string) (e : fused F) (m : list (string * fused F)) :
  well_keyed m -> dict_get k m = Some e -> sid e = k.
Proof.
  intros [_ Hall]. induction Hall as [|[k' v'] m Hx Hm IH]; simpl; [discriminate|].
  destruct (decide (k = k')) as [->|Hne]; [|exact IH].
  intros [= <-]. exact Hx.
Qed.

Lemma entries_for_get (s : string) (m : list (string * fused F)) :
  well_keyed m ->
  entries_for s m = match dict_get s m with Some e => [e] | None => [] end.
Proof.
  unfold entries_for, dict_values. intros [Hnd Hall].
  induction Hall as [|[k v] m Hx Hm IH]; [reflexivity|].
  simpl in *. apply NoDup_cons in Hnd as [Hk Hnd]. specialize (IH Hnd).
  destruct (decide (s = k)) as [->|Hne].
  - rewrite filter_cons_True by exact Hx. rewrite IH.
    apply dict_get_None in Hk. now rewrite Hk.
  - rewrite filter_cons_False by congruence. exact IH.
Qed.

Lemma merge_dense_well_keyed_from (acc : list (string * fused F)) dense_cands :
  well_keyed acc ->
  well_keyed
    (foldl (fun merged c =>
              dict_set (fst c)
                {| sid := fst c; dense_score := snd c; bm25_score := f0 |} merged)
           acc dense_cands).
Proof.
  revert acc. induction dense_cands as [|c l IH]; intros acc Hacc; simpl; [exact Hacc|].
  apply IH. now apply well_keyed_set.
Qed.

Lemma merge_dense_well_keyed dense_cands : well_keyed (merge_dense dense_cands).
Proof.
  apply merge_dense_well_keyed_from. split; [apply NoDup_nil_2 | constructor].
Qed.

Lemma merge_bm25_well_keyed (acc : list (string * fused F)) bm25_candidates :
  well_keyed acc -> well_keyed (merge_bm25 acc bm25_candidates).
Proof.
  unfold merge_bm25. revert acc.
  induction bm25_candidates as [|c l IH]; intros acc Hacc; simpl; [exact Hacc|].
  apply IH. destruct (dict_get (fst c) acc) as [e|] eqn:He.
  - apply well_keyed_set; [|exact Hacc]. simpl. now apply (well_keyed_get _ _ acc).
  - now apply well_keyed_set.
Qed.

Lemma merge_well_keyed dense_cands bm25_candidates :
  well_keyed (merge dense_cands bm25_candidates).
Proof. apply merge_bm25_well_keyed, merge_dense_well_keyed. Qed.

Lemma merge_dense_get_from (s : string) (acc : list (string * fused F)) dense_cands :
  dict_get s
    (foldl (fun merged c =>
              dict_set (fst c)
                {| sid := fst c; dense_score := snd c; bm25_score := f0 |} merged)
           acc dense_cands) =
  match last_score s dense_cands with
  | Some x => Some {| sid := s; dense_score := x; bm25_score := f0 |}
  | None => dict_get s acc
  end.
Proof.
  revert acc. induction dense_cands as [|[s' x] l IH]; intros acc; simpl; [reflexivity|].
  rewrite IH. destruct (last_score s l); [reflexivity|].
  destruct (decide (s = s')) as [->|Hne].
  - now rewrite dict_get_set_eq.
  - rewrite dict_get_set_ne by congruence. reflexivity.
Qed.

Lemma merge_dense_get (s : string) dense_cands :
  dict_get s (merge_dense dense_cands) =
  match last_score s dense_cands with
  | Some x => Some {| sid := s; dense_score := x; bm25_score := f0 |}
  | None => None
  end.
Proof. unfold merge_dense. now rewrite merge_dense_get_from. Qed.

(** The entry the second loop leaves for [s] when its last lexical score
    is [b]: the section id and dense score already recorded, or [s] and
    [0.0]. *)
Definition with_bm25 (s : string) (acc : list (string * fused F)) (b : F) : fused F :=
  match dict_get s acc with
  | Some e => {| sid := sid e; dense_score := dense_score e; bm25_score := b |}
  | None => {| sid := s; dense_score := f0; bm25_score := b |}
  end.

Lemma merge_bm25_get (s : string) (acc : list (string * fused F)) bm25_candidates :
  dict_get s (merge_bm25 acc bm25_candidates) =
  match last_score s bm25_candidates with
  | Some b => Some (with_bm25 s acc b)
  | None => dict_get s acc
  end.
Proof.
  unfold merge_bm25. revert acc.
  induction bm25_candidates as [|[s' b'] l IH]; intros acc; simpl; [reflexivity|].
  rewrite IH. destruct (decide (s = s')) as [->|Hne].
  - assert (Hget : dict_get s'
        match dict_get s' acc with
        | Some e => dict_set s'
            {| sid := sid e; dense_score := dense_score e; bm25_score := b' |} acc
        | None => dict_set s' {| sid := s'; dense_score := f0; bm25_score := b' |} acc
        end = Some (with_bm25 s' acc b')).
    { unfold with_bm25. destruct (dict_get s' acc); now rewrite dict_get_set_eq. }
    destruct (last_score s' l) as [b|].
    + f_equal. unfold with_bm25 at 1. rewrite Hget.
      unfold with_bm25. now destruct (dict_get s' acc).
    + exact Hget.
  - assert (Hget : dict_get s
        match dict_get s' acc with
        | Some e => dict_set s'
            {| sid := sid e; dense_score := dense_score e; bm25_score := b' |} acc
        | None => dict_set s' {| sid := s'; dense_score := f0; bm25_score := b' |} acc
        end = dict_get s acc).
    { destruct (dict_get s' acc); now rewrite dict_get_set_ne by congruence. }
    destruct (last_score s l) as [b|].
    + f_equal. unfold with_bm25. now rewrite Hget.
    + exact Hget.
Qed.

(** What [merged] holds for a section id, from the last score each side
    recorded for it. *)
Lemma merge_get (s : string) dense_cands bm25_candidates :
  dict_get s (merge dense_cands bm25_candidates) =
  match last_score s dense_cands, last_score s bm25_candidates with
  | None, None => None
  | d, b => Some {| sid := s; dense_score := default f0 d; bm25_score := default f0 b |}
  end.
Proof.
  unfold merge. rewrite merge_bm25_get. unfold with_bm25. rewrite merge_dense_get.
  destruct (last_score s dense_cands), (last_score s bm25_candidates); reflexivity.
Qed.

Lemma last_score_Some (s : string) (x : F) (l : list (string * F)) :
  last_score s l = Some x -> (s, x) ∈ l.
Proof.
  induction l as [|[s' y] l IH]; simpl; [discriminate|].
  destruct (last_score s l) as [z|].
  - intros [= ->]. apply elem_of_cons. right. now apply IH.
  - destruct (decide (s = s')) as [->|Hne]; [|discriminate].
    intros [= ->]. apply elem_of_cons. now left.
Qed.

Lemma last_score_None (s : string) (l : list (string * F)) :
  last_score s l = None <-> s ∉ map fst l.
Proof.
  induction l as [|[s' y] l IH]; simpl.
  - rewrite elem_of_nil. tauto.
  - rewrite not_elem_of_cons. destruct (last_score s l) as [z|].
    + split; [discriminate|]. intros [_ H]. apply IH in H. discriminate.
    + destruct (decide (s = s')) as [->|Hne].
      * split; [discriminate | intros [H _]; congruence].
      * split; [intros _; split; [exact Hne | now apply IH] | reflexivity].
Qed.

Lemma last_score_elem (s : string) (l : list (string * F)) :
  s ∈ map fst l -> exists x, last_score s l = Some x /\ (s, x) ∈ l.
Proof.
  intros Hin. destruct (last_score s l) as [x|] eqn:Hx.
  - exists x. split; [reflexivity | now apply last_score_Some].
  - apply last_score_None in Hx. contradiction.
Qed.

(** C5.  In the fused dictionary a section id found by both passes has
    exactly one entry, which carries a dense score and a BM25 score
    recorded for it; a section id found by one pass only has exactly one
    entry, with [0.0] on the other side. *)
Theorem fusion_one_entry_per_section
    (dense_cands bm25_candidates : list (string * F)) (s : string) :
  let merged := merge dense_cands bm25_candidates in
  (s ∈ map fst dense_cands -> s ∈ map fst bm25_candidates ->
   exists d b,
     entries_for s merged = [ {| sid := s; dense_score := d; bm25_score := b |} ] /\
     (s, d) ∈ dense_cands /\ (s, b) ∈ bm25_candidates) /\
  (s ∈ map fst dense_cands -> s ∉ map fst bm25_candidates ->
   exists d,
     entries_for s merged = [ {| sid := s; dense_score := d; bm25_score := f0 |} ] /\
     (s, d) ∈ dense_cands) /\
  (s ∉ map fst dense_cands -> s ∈ map fst bm25_candidates ->
   exists b,
     entries_for s merged = [ {| sid := s; dense_score := f0; bm25_score := b |} ] /\
     (s, b) ∈ bm25_candidates).
Proof.
  intros merged. unfold merged.
  rewrite entries_for_get by apply merge_well_keyed. rewrite merge_get.
  repeat split.
  - intros Hd Hb.
    destruct (last_score_elem _ _ Hd) as (d & -> & Hd').
    destruct (last_score_elem _ _ Hb) as (b & -> & Hb').
    now exists d, b.
  - intros Hd Hb.
    destruct (last_score_elem _ _ Hd) as (d & -> & Hd').
    apply last_score_None in Hb. rewrite Hb. now exists d.
  - intros Hd Hb.
    destruct (last_score_elem _ _ Hb) as (b & -> & Hb').
    apply last_score_None in Hd. rewrite Hd. now exists b.
Qed.

End Fusion.

(** ** Ranking and enrichment *)

Section Ranking.

Context {F : Type} {E : Externals F}.
Variable R : resources F.

(** On floats other than NaN, [<] is a strict weak order. *)
Hypothesis flt_asym : forall x y : F, flt x y = true -> flt y x = false.
Hypothesis flt_negtrans :
  forall x y z : F, flt x y = false -> flt y z = false -> flt x z = false.

Lemma insert_desc_elem {A : Type} (key : A -> F) (x y : A) (l : list A) :
  y ∈ insert_desc key x l <-> y = x \/ y ∈ l.
Proof.
  induction l as [|z l IH]; simpl.
  - rewrite list_elem_of_singleton, elem_of_nil. tauto.
  - destruct (flt (key x) (key z)).
    + rewrite !elem_of_cons, IH. tauto.
    + rewrite !elem_of_cons. tauto.
Qed.

Lemma insert_desc_sorted {A : Type} (key : A -> F) (x : A) (l : list A) :
  sorted_desc key l -> sorted_desc key (insert_desc key x l).
Proof.
  unfold sorted_desc. induction 1 as [|z l Hl IH Hz]; simpl.
  - repeat constructor.
  - destruct (flt (key x) (key z)) eqn:Hxz.
    + constructor; [exact IH|].
      apply Forall_forall. intros y Hy.
      apply insert_desc_elem in Hy as [->|Hy].
      * now apply flt_asym.
      * rewrite Forall_forall in Hz. now apply Hz.
    + constructor; [now constructor|].
      constructor; [exact Hxz|].
      rewrite Forall_forall in Hz |- *. intros y Hy.
      apply (flt_negtrans _ (key z)); [exact Hxz | now apply Hz].
Qed.

Lemma sorted_reverse_sorted {A : Type} (key : A -> F) (l : list A) :
  sorted_desc key (sorted_reverse key l).
Proof.
  unfold sorted_reverse. induction l as [|x l IH]; simpl.
  - constructor.
  - now apply insert_desc_sorted.
Qed.

End Ranking.

Section Enrichment.

Context {F : Type} {E : Externals F}.
Variable R : resources F.

Lemma StronglySorted_take {A : Type} (P : A -> A -> Prop) (n : nat) (l : list A) :
  StronglySorted P l -> StronglySorted P (take n l).
Proof.
  intros Hl. revert n. induction Hl as [|x l Hl IH Hx]; intros n.
  - rewrite take_nil. constructor.
  - destruct n as [|n]; simpl; [constructor|].
    constructor; [apply IH | now apply Forall_take].
Qed.

Lemma slice_to_sorted {A : Type} (P : A -> A -> Prop) (k : Z) (l : list A) :
  StronglySorted P l -> StronglySorted P (slice_to k l).
Proof. unfold slice_to. destruct (0 <=? k)%Z; apply StronglySorted_take. Qed.

Lemma slice_to_length {A : Type} (k : Z) (l : list A) :
  (0 <= k)%Z -> List.length (slice_to k l) <= Z.to_nat k.
Proof.
  intros Hk. unfold slice_to. rewrite (proj2 (Z.leb_le 0 k) Hk).
  rewrite length_take. lia.
Qed.

Lemma mapM_Forall2 {A B : Type} (f : A -> res B) (l : list A) (l' : list B) :
  mapM f l = Ok l' -> Forall2 (fun x y => f x = Ok y) l l'.
Proof.
  revert l'. induction l as [|x l IH]; intros l'; simpl.
  - intros [= <-]. constructor.
  - destruct (f x) as [y|e] eqn:Hx; simpl; [|discriminate].
    destruct (mapM f l) as [ys|e]; simpl; [|discriminate].
    intros [= <-]. constructor; [exact Hx | now apply IH].
Qed.

Lemma StronglySorted_Forall2 {A B : Type} (P : A -> A -> Prop) (Q : B -> B -> Prop)
    (T : A -> B -> Prop) (l : list A) (l' : list B) :
  (forall a a' b b', T a b -> T a' b' -> P a a' -> Q b b') ->
  Forall2 T l l' -> StronglySorted P l -> StronglySorted Q l'.
Proof.
  intros HT Hl. induction Hl as [|a b l l' Hab Hl IH]; intros Hs.
  - constructor.
  - apply StronglySorted_inv in Hs as [Hs Ha]. constructor; [now apply IH|].
    clear IH Hs. induction Hl as [|a' b' l l' Hab' Hl IH]; [constructor|].
    apply Forall_cons in Ha as [Ha Hrest]. constructor; [|now apply IH].
    now apply (HT a a' b b').
Qed.

Lemma add_neighbors_score (h : fused F) (item : search_item F) :
  add_neighbors R (make_hit R h) = Ok item -> item_score item = combined h.
Proof.
  unfold add_neighbors. destruct (successors R _); simpl; [|discriminate].
  intros [= <-]. reflexivity.
Qed.

Lemma add_neighbors_node (h : hit F) (item : search_item F) :
  add_neighbors R h = Ok item ->
  r_section_id item = hit_section_id h /\
  exists n, kg R !! r_section_id item = Some n /\ neighbors item = take 3 (succ n).
Proof.
  unfold add_neighbors, successors.
  destruct (kg R !! hit_section_id h) as [n|] eqn:Hn; simpl; [|discriminate].
  intros [= <-]. simpl. split; [reflexivity|]. now exists n.
Qed.

(** What a successful call of [sop_search] went through. *)
Lemma sop_search_ok (q : string) (k : Z) (r : tool_result F) :
  sop_search R (JStr q) (JInt k) = Ok r ->
  exists bm25_candidates dense_cands out,
    mapM (add_neighbors R)
      (map (make_hit R)
         (slice_to k
            (sorted_reverse combined
               (dict_values (merge dense_cands bm25_candidates))))) = Ok out /\
    r = Dumps (SearchPayload q out).
Proof.
  unfold sop_search. simpl.
  destruct (bm25_cands R _ _) as [bm|e]; simpl; [|discriminate].
  destruct (faiss_search R q k) as [pairs|e]; simpl; [|discriminate].
  destruct (dense_candidates R pairs) as [dc|e]; simpl; [|discriminate].
  destruct (mapM _ _) as [out|e] eqn:Hout; simpl; [|discriminate].
  intros [= <-]. now exists bm, dc, out.
Qed.

(** C4.  With [<] a strict weak order on scores, every list of results
    that [sop_search] returns for [k >= 1] has at most [k] elements and is
    in descending order of [dense*0.7 + bm25*0.3]. *)
Theorem search_results_bounded_and_sorted
    (q : string) (k : Z) (q' : string) (out : list (search_item F)) :
  (forall x y : F, flt x y = true -> flt y x = false) ->
  (forall x y z : F, flt x y = false -> flt y z = false -> flt x z = false) ->
  (1 <= k)%Z ->
  sop_search R (JStr q) (JInt k) = Ok (Dumps (SearchPayload q' out)) ->
  List.length out <= Z.to_nat k /\ sorted_desc item_score out.
Proof.
  intros Hasym Hneg Hk Hok.
  apply sop_search_ok in Hok as (bm & dc & out' & Hout & [= _ <-]).
  apply mapM_Forall2 in Hout.
  apply Forall2_fmap_l in Hout. split.
  - rewrite <- (Forall2_length _ _ _ Hout). apply slice_to_length. lia.
  - unfold sorted_desc.
    eapply (StronglySorted_Forall2
              (fun a b => flt (combined a) (combined b) = false)); [| exact Hout |].
    + intros a a' b b' Ha Ha' Hlt. simpl in Ha, Ha'.
      now rewrite (add_neighbors_score _ _ Ha), (add_neighbors_score _ _ Ha').
    + apply slice_to_sorted. now apply (sorted_reverse_sorted Hasym Hneg).
Qed.

Lemma mapM_add_neighbors_nodes (hits : list (hit F)) (out : list (search_item F)) :
  mapM (add_neighbors R) hits = Ok out ->
  forall item, item ∈ out -> is_Some (kg R !! r_section_id item).
Proof.
  intros Hout. apply mapM_Forall2 in Hout.
  induction Hout as [|h it l l' Hh Hl IH]; intros item Hitem.
  - now apply elem_of_nil in Hitem.
  - apply elem_of_cons in Hitem as [->|Hitem]; [|now apply IH].
    apply add_neighbors_node in Hh as (_ & n & Hn & _). now exists n.
Qed.

(** Every result of a successful search has a node in the graph: a
    surviving section without a node makes the whole call raise. *)
Lemma search_ok_nodes_present (q : string) (k : Z) (q' : string)
    (out : list (search_item F)) :
  sop_search R (JStr q) (JInt k) = Ok (Dumps (SearchPayload q' out)) ->
  forall item, item ∈ out -> is_Some (kg R !! r_section_id item).
Proof.
  intros Hok.
  apply sop_search_ok in Hok as (bm & dc & out' & Hout & [= _ <-]).
  exact (mapM_add_neighbors_nodes _ _ Hout).
Qed.

End Enrichment.

(** ** The concrete store *)

Lemma qlt_asym (x y : Q) : Demo.qlt x y = true -> Demo.qlt y x = false.
Proof.
  unfold Demo.qlt. rewrite negb_true_iff, negb_false_iff.
  intros H. apply Qle_bool_iff, Qlt_le_weak, Qnot_le_lt.
  intros Hle. apply Qle_bool_iff in Hle. congruence.
Qed.

Lemma qlt_negtrans (x y z : Q) :
  Demo.qlt x y = false -> Demo.qlt y z = false -> Demo.qlt x z = false.
Proof.
  unfold Demo.qlt. rewrite !negb_false_iff, !Qle_bool_iff.
  intros Hyx Hzy. now apply (Qle_trans _ y).
Qed.

(** C2, as the code has it.  ["SOP-003"] is in the document table and
    has no node in the graph.  A search whose results include it does not
    return a result with an empty excerpt: [kg.successors] raises, and the
    request is answered by an error response with code -32000. *)
Theorem search_raises_for_section_without_node :
  kg Demo.store !! "SOP-003" = None /\
  sop_search Demo.store (JStr "spill") (JInt 3) =
    Raise {| kind := NetworkXError;
             message := "The node SOP-003 is not in the digraph." |} /\
  run Demo.store [Demo.search_spill_line] =
    [Reply (Failure (JInt 9) (-32000) "The node SOP-003 is not in the digraph.")].
Proof. repeat split; vm_compute; reflexivity. Qed.

(** The empty text has one sentence, and the empty citation covers it. *)
Lemma validate_empty_text_counterexample :
  ~ (exists pct details,
       cite_validate (F:=Q) (JStr "") (JArr []) = Ok (Dumps (ValidatePayload pct details))
       /\ List.length details = 0 /\ (pct == 0)%Q)
  /\
  ~ (exists pct details,
       cite_validate (F:=Q) (JStr "") (JArr [JStr ""]) = Ok (Dumps (ValidatePayload pct details))
       /\ List.length details = 0 /\ (pct == 0)%Q).
Proof.
  split; intros (pct & details & Hv & Hlen & Hpct);
    vm_compute in Hv; injection Hv as <- <-; discriminate Hlen.
Qed.

(** ["SOP-002"] is a node of the graph, and reading it says not found. *)
Lemma read_present_node_counterexample :
  kg Demo.store !! "SOP-002" = Some {| attrs := ∅; succ := [] |} /\
  ~ (exists text title sop section,
       sop_read Demo.store (JStr "SOP-002")
         = Ok (Dumps (ReadPayload "SOP-002" text title sop section))).
Proof.
  split; [vm_compute; reflexivity|].
  intros (text & title & sop & section & H). vm_compute in H. discriminate H.
Qed.

(** The white space between two sentences is not in any sentence. *)
Lemma validate_partition_counterexample :
  ~ (exists pct details,
       cite_validate (F:=Q) (JStr "A. B.") (JArr [])
         = Ok (Dumps (ValidatePayload pct details))
       /\ String.concat "" (map sentence details) = Str.strip "A. B.").
Proof.
  intros (pct & details & Hv & Hcat).
  vm_compute in Hv. injection Hv as <- <-. vm_compute in Hcat. discriminate Hcat.
Qed.

(** ** The theorems at work on the concrete store *)

Lemma initialize_notification_witness :
  Str.strip Demo.initialize_line <> "" /\
  json_loads (F:=Q) (Str.strip Demo.initialize_line)
    = inr (JObj [("id", JInt 1); ("method", JStr "initialize")]) /\
  dict_get "method" [("id", JInt 1); ("method", JStr "initialize")]
    = Some (JStr "initialize") /\
  run Demo.store [Demo.initialize_line; ""] =
    [ Notification "notifications/initialized" (JObj []);
      Reply (Success (JInt 1) (Initialize "2025-03-26" "SOP MCP Server" "1.0.0")) ].
Proof.
  split; [vm_compute; discriminate|].
  split; [vm_compute; reflexivity|].
  split; [vm_compute; reflexivity|].
  apply (initialize_notification_precedes_response Demo.store Demo.initialize_line [""]
           [("id", JInt 1); ("method", JStr "initialize")]).
  - vm_compute; discriminate.
  - vm_compute; reflexivity.
  - vm_compute; reflexivity.
Defined.


Lemma search_without_query_witness :
  Str.strip Demo.search_no_query_line <> "" /\
  json_loads (F:=Q) (Str.strip Demo.search_no_query_line) = inr Demo.search_no_query_request /\
  dict_get "query" [("k", JInt 2)] = None /\
  run Demo.store [Demo.search_no_query_line; Demo.initialize_line] =
    Reply (Failure (JInt 7) (-32000) "'NoneType' object has no attribute 'split'")
    :: run Demo.store [Demo.initialize_line].
Proof.
  split; [vm_compute; discriminate|].
  split; [vm_compute; reflexivity|].
  split; [vm_compute; reflexivity|].
  apply (search_without_query_is_handler_error Demo.store Demo.search_no_query_line
           [Demo.initialize_line]
           [("id", JInt 7); ("method", JStr "tools/call");
            ("params", JObj [("name", JStr "sop.search");
                             ("arguments", JObj [("k", JInt 2)])])]
           [("name", JStr "sop.search"); ("arguments", JObj [("k", JInt 2)])]
           [("k", JInt 2)]).
  - vm_compute; discriminate.
  - vm_compute; reflexivity.
  - vm_compute; reflexivity.
  - vm_compute; reflexivity.
  - vm_compute; reflexivity.
  - vm_compute; reflexivity.
  - vm_compute; reflexivity.
Defined.

Lemma search_results_witness :
  (forall x y : Q, Demo.qlt x y = true -> Demo.qlt y x = false) /\
  (forall x y z : Q, Demo.qlt x y = false -> Demo.qlt y z = false -> Demo.qlt x z = false) /\
  (1 <= 2)%Z /\
  sop_search Demo.store (JStr "lockout procedure") (JInt 2)
    = Ok (Dumps (SearchPayload "lockout procedure" Demo.lockout_results)) /\
  List.length Demo.lockout_results <= Z.to_nat 2 /\
  sorted_desc item_score Demo.lockout_results.
Proof.
  split; [exact qlt_asym|]. split; [exact qlt_negtrans|].
  split; [lia|]. split; [vm_compute; reflexivity|].
  apply (@search_results_bounded_and_sorted Q Demo.externals Demo.store
           "lockout procedure" 2 "lockout procedure" Demo.lockout_results
           qlt_asym qlt_negtrans).
  - lia.
  - vm_compute; reflexivity.
Defined.

(** * Further properties *)

(** ** The dispatcher *)

Section DispatcherMore.

Context {F : Type} {E : Externals F}.
Variable R : resources F.

Lemma eq_str_true (v : json) (s : string) : eq_str v s = true -> v = JStr s.
Proof.
  destruct v; simpl; try discriminate.
  intros H. apply bool_decide_eq_true_1 in H. now subst.
Qed.

Lemma eq_str_false (v : json) (s : string) : v <> JStr s -> eq_str v s = false.
Proof.
  intros Hne. destruct (eq_str v s) eqn:H; [|reflexivity].
  apply eq_str_true in H. contradiction.
Qed.

(** X1.  On a decoded object [handle_request] never raises, and the
    response it returns, success or error, carries the request's [id]
    unchanged ([None] when the request has none). *)
Theorem handle_request_echoes_id (d : list (string * json)) :
  exists printed resp,
    handle_request R (JObj d) = Ok (printed, resp) /\
    response_id resp = default JNull (dict_get "id" d).
Proof.
  rewrite handle_request_dict.
  destruct (dispatch R _ _) as [[printed result]|e]; eexists _, _; split; reflexivity.
Qed.

Lemma bind_Ok {A B : Type} (m : res A) (k : A -> res B) (b : B) :
  bind m k = Ok b -> exists a, m = Ok a /\ k a = Ok b.
Proof. destruct m as [a|e]; simpl; [eauto | discriminate]. Qed.

Ltac inv_bind H :=
  repeat (let a := fresh "a" in let Ha := fresh "Ha" in
          apply bind_Ok in H as (a & Ha & H)).

Lemma dispatch_printed (method params : json) (printed : list (out_line F))
    (result : result F) :
  dispatch R method params = Ok (printed, result) ->
  printed = [] \/
  (method = JStr "initialize" /\
   printed = [Notification "notifications/initialized" (JObj [])]).
Proof.
  unfold dispatch. intros H.
  destruct (eq_str method "tools/list"); [inversion H; now left|].
  destruct (eq_str method "tools/call").
  - apply bind_Ok in H as (tool_name & _ & H).
    apply bind_Ok in H as (arguments & _ & H).
    destruct (eq_str tool_name "sop.search"); [inv_bind H; inversion H; now left|].
    destruct (eq_str tool_name "sop.read"); [inv_bind H; inversion H; now left|].
    destruct (eq_str tool_name "web.search"); [inv_bind H; inversion H; now left|].
    destruct (eq_str tool_name "cite.validate"); [inv_bind H; inversion H; now left|].
    discriminate.
  - destruct (eq_str method "initialize") eqn:Hinit; [|discriminate].
    inversion H. right. split; [now apply eq_str_true | reflexivity].
Qed.

(** X2.  Handling a request writes nothing of its own to standard
    output, except for [initialize], which writes the one notification:
    no other method and no tool call ever emits a notification. *)
Theorem only_initialize_prints (d : list (string * json))
    (printed : list (out_line F)) (resp : response F) :
  handle_request R (JObj d) = Ok (printed, resp) ->
  printed = [] \/
  (dict_get "method" d = Some (JStr "initialize") /\
   printed = [Notification "notifications/initialized" (JObj [])]).
Proof.
  rewrite handle_request_dict.
  destruct (dispatch R _ _) as [[printed' result]|e] eqn:Hd.
  - intros [= <- _]. apply dispatch_printed in Hd as [->|[Hm ->]]; [now left|].
    right. split; [|reflexivity].
    destruct (dict_get "method" d); simpl in Hm; [now subst | discriminate].
  - intros [= <- _]. now left.
Qed.

(** X3.  [tools/list] answers with the four tool descriptors, named
    [sop.search], [sop.read], [web.search] and [cite.validate] in that
    order, whatever the request's [params] are (they are never looked
    at). *)
Theorem tools_list_returns_four_tools (d : list (string * json)) :
  dict_get "method" d = Some (JStr "tools/list") ->
  handle_request R (JObj d) =
    Ok ([], Success (default JNull (dict_get "id" d)) (ToolsList tools)) /\
  map name tools = ["sop.search"; "sop.read"; "web.search"; "cite.validate"].
Proof.
  intros Hm. split; [|reflexivity].
  rewrite handle_request_dict, Hm. reflexivity.
Qed.

(** X4.  A request whose method is none of [tools/list], [tools/call]
    and [initialize] (a missing method included) is answered by an error
    response with code -32000 that echoes the id and names the method. *)
Theorem unknown_method_is_error (d : list (string * json)) :
  let method := default JNull (dict_get "method" d) in
  method <> JStr "tools/list" ->
  method <> JStr "tools/call" ->
  method <> JStr "initialize" ->
  handle_request R (JObj d) =
    Ok ([], Failure (default JNull (dict_get "id" d)) (-32000)
              ("Unknown method: " +:+ py_format method)).
Proof.
  intros method H1 H2 H3. rewrite handle_request_dict. fold method.
  unfold dispatch. now rewrite !eq_str_false by assumption.
Qed.

(** X5.  A [tools/call] whose tool name is none of the four tools (a
    missing name included) is answered by an error response with code
    -32000 that echoes the id and names the tool. *)
Theorem unknown_tool_is_error (d params : list (string * json)) :
  let tool_name := default JNull (dict_get "name" params) in
  dict_get "method" d = Some (JStr "tools/call") ->
  dict_get "params" d = Some (JObj params) ->
  tool_name <> JStr "sop.search" ->
  tool_name <> JStr "sop.read" ->
  tool_name <> JStr "web.search" ->
  tool_name <> JStr "cite.validate" ->
  handle_request R (JObj d) =
    Ok ([], Failure (default JNull (dict_get "id" d)) (-32000)
              ("Unknown tool: " +:+ py_format tool_name)).
Proof.
  intros tool_name Hm Hp H1 H2 H3 H4. rewrite handle_request_dict, Hm, Hp.
  unfold dispatch. simpl.
  change (match dict_get "name" params with Some x => x | None => JNull end)
    with tool_name.
  now rewrite !eq_str_false by assumption.
Qed.

(** X6.  A [tools/call] whose [params] is present and is not an object
    (for instance [null]) is answered by an error response with code
    -32000 that echoes the id: the failed [params.get] is caught like a
    handler exception. *)
Theorem tools_call_with_bad_params_is_error (d : list (string * json)) (p : json) :
  dict_get "method" d = Some (JStr "tools/call") ->
  dict_get "params" d = Some p ->
  (forall items, p <> JObj items) ->
  handle_request R (JObj d) =
    Ok ([], Failure (default JNull (dict_get "id" d)) (-32000)
              ("'" +:+ type_name p +:+ "' object has no attribute 'get'")).
Proof.
  intros Hm Hp Hnot. rewrite handle_request_dict, Hm, Hp.
  unfold dispatch. simpl. destruct p; try reflexivity.
  now destruct (Hnot items).
Qed.

(** X7.  A line that decodes to a value other than an object (a list, a
    number, a string, [null]) ends the serving loop: nothing is written for
    it and no later line is read. *)
Theorem non_object_request_ends_loop (line : string) (rest : list string) (v : json) :
  Str.strip line <> "" ->
  json_loads (Str.strip line) = inr v ->
  (forall items, v <> JObj items) ->
  run R (line :: rest) = [].
Proof.
  intros Hline Hloads Hnot. simpl. rewrite (not_blank _ Hline), Hloads.
  destruct v; try reflexivity. now destruct (Hnot items).
Qed.

(** X8.  The first blank line ends the loop: whatever follows it is never
    read. *)
Theorem lines_after_blank_are_ignored (before after : list string) (blank : string) :
  Str.strip blank = "" ->
  run R (before ++ blank :: after) = run R before.
Proof.
  intros Hblank. induction before as [|line before IH].
  - simpl. rewrite (bool_decide_eq_true_2 (Str.strip blank = "")) by exact Hblank.
    now rewrite orb_true_r.
  - simpl. destruct (bool_decide (line = "") || bool_decide (Str.strip line = ""));
      [reflexivity|].
    destruct (json_loads (Str.strip line)) as [msg|request]; [now rewrite IH|].
    destruct (handle_request R request) as [[printed response]|e]; [|reflexivity].
    now rewrite IH.
Qed.

Lemma replies_app (a b : list (out_line F)) : replies (a ++ b) = replies a ++ replies b.
Proof. unfold replies. apply omap_app. Qed.

Lemma replies_printed (d : list (string * json)) (printed : list (out_line F))
    (resp : response F) :
  handle_request R (JObj d) = Ok (printed, resp) -> replies printed = [].
Proof.
  intros H. apply only_initialize_prints in H as [->|[_ ->]]; reflexivity.
Qed.

(** X9.  For input lines that are not blank and that each decode to an
    object, the loop writes exactly one response per line, in the order of
    the lines, and the response for a line is the one [handle_request]
    returns for it. *)
Theorem one_response_per_request_in_order
    (lines : list string) (requests : list (list (string * json))) :
  Forall2 (fun line d =>
             Str.strip line <> "" /\ json_loads (Str.strip line) = inr (JObj d))
          lines requests ->
  exists responses,
    Forall2 (fun d resp => exists printed, handle_request R (JObj d) = Ok (printed, resp))
            requests responses /\
    replies (run R lines) = responses /\
    List.length (replies (run R lines)) = List.length lines.
Proof.
  induction 1 as [|line d lines requests [Hline Hloads] Hrest IH].
  - exists []. repeat split. constructor.
  - destruct IH as (responses & Hall & Hrep & Hlen). subst responses.
    destruct (handle_request_echoes_id d) as (printed & resp & Hh & _).
    exists (resp :: replies (run R lines)). simpl run.
    rewrite (not_blank _ Hline), Hloads, Hh.
    rewrite replies_app, (replies_printed _ _ _ Hh). simpl.
    repeat split.
    + constructor; [now exists printed | exact Hall].
    + now rewrite Hlen.
Qed.

(** X10.  Without a configured [SERPER_API_KEY] (unset or empty) a
    [tools/call] of [web.search] makes no outside call and is not an
    error: the response is a success whose payload holds the query, no
    results and the warning that the tool is disabled. *)
Theorem web_search_disabled_without_key
    (d params arguments : list (string * json)) :
  SERPER_API_KEY = None \/ SERPER_API_KEY = Some "" ->
  dict_get "method" d = Some (JStr "tools/call") ->
  dict_get "params" d = Some (JObj params) ->
  dict_get "name" params = Some (JStr "web.search") ->
  default (JObj []) (dict_get "arguments" params) = JObj arguments ->
  handle_request R (JObj d) =
    Ok ([], Success (default JNull (dict_get "id" d))
              (ToolCall
                 (Dumps (WebPayload (default JNull (dict_get "query" arguments)) []
                    (Some "No SERPER_API_KEY configured; web.search is disabled in this environment."))))).
Proof.
  intros Hkey Hm Hp Hname Hargs.
  rewrite handle_request_dict, Hm, Hp. unfold dispatch. simpl. rewrite Hname. simpl.
  change (match dict_get "arguments" params with Some x => x | None => JObj [] end)
    with (default (JObj []) (dict_get "arguments" params)).
  rewrite Hargs. simpl. unfold web_search.
  destruct Hkey as [-> | ->]; reflexivity.
Qed.

End DispatcherMore.

(** ** Citation coverage, continued *)

Lemma filter_covered_all (l : list detail) :
  List.length (filter (fun c => covered c = true) l) = List.length l
  <-> Forall (fun c => covered c = true) l.
Proof.
  induction l as [|d l IH]; simpl.
  - split; [constructor | reflexivity].
  - destruct (covered d) eqn:Hd.
    + rewrite filter_cons_True by exact Hd. simpl. rewrite Forall_cons.
      split; [intros [= H]; split; [exact Hd | now apply IH] |
              intros [_ H]; f_equal; now apply IH].
    + rewrite filter_cons_False by (rewrite Hd; discriminate).
      split.
      * intros H. pose proof (length_filter (fun c => covered c = true) l). lia.
      * intros H. apply Forall_cons in H as [H _]. congruence.
Qed.

Lemma filter_covered_none (l : list detail) :
  List.length (filter (fun c => covered c = true) l) = 0
  <-> Forall (fun c => covered c = false) l.
Proof.
  induction l as [|d l IH]; simpl.
  - split; [constructor | reflexivity].
  - destruct (covered d) eqn:Hd.
    + rewrite filter_cons_True by exact Hd. simpl.
      split; [discriminate | intros H; apply Forall_cons in H as [H _]; congruence].
    + rewrite filter_cons_False by (rewrite Hd; discriminate).
      rewrite Forall_cons, IH. tauto.
Qed.

(** The percentage of [c] out of [n >= 1] items, as [cov_pct] computes
    it. *)
Lemma percentage_facts (c n : nat) :
  c <= n -> 1 <= n ->
  let pct := (inject_Z (Z.of_nat c) / inject_Z (Z.of_nat (Nat.max 1 n)) * 100)%Q in
  (0 <= pct)%Q /\ (pct <= 100)%Q /\ ((pct == 100)%Q <-> c = n) /\ ((pct == 0)%Q <-> c = 0).
Proof.
  intros Hc Hn pct. subst pct.
  replace (Nat.max 1 n) with n by lia.
  destruct (Z.of_nat n) as [|p|p] eqn:Hp; [lia | | lia].
  unfold Qle, Qeq, Qdiv, Qmult, Qinv, inject_Z. simpl.
  repeat split; try lia.
Qed.

Lemma coverage_length (sentences : list string) (a : gset string) :
  List.length (coverage sentences a) = List.length sentences.
Proof. unfold coverage. apply length_map. Qed.

Lemma re_split_all_but_last (s : string) :
  (forall b,
      match Str.re_split_from (Str.InPiece b) s with
      | [] => True
      | p :: rest =>
          match rest with
          | [] => True
          | _ :: _ =>
              (ends_with_terminator p = true \/ (p = "" /\ b = true)) /\
              all_but_last (fun p => ends_with_terminator p = true) rest
          end
      end) /\
  all_but_last (fun p => ends_with_terminator p = true) (Str.re_split_from Str.InSep s).
Proof.
  induction s as [|c s [IHp IHs]]; [split; [intros b|]; exact I|].
  assert (Hpush :
    match Str.push c (Str.re_split_from (Str.InPiece (Str.is_terminator c)) s) with
    | [] => True
    | p :: rest =>
        match rest with
        | [] => True
        | _ :: _ =>
            ends_with_terminator p = true /\
            all_but_last (fun p => ends_with_terminator p = true) rest
        end
    end).
  { specialize (IHp (Str.is_terminator c)).
    destruct (Str.re_split_from (Str.InPiece (Str.is_terminator c)) s) as [|p rest];
      [exact I|]. simpl. destruct rest as [|p' rest]; [exact I|].
    destruct IHp as [[Hp | [-> Hc]] Hrest]; split; try exact Hrest.
    - destruct p; [discriminate | exact Hp].
    - exact Hc. }
  split.
  - intros b. simpl. destruct (b && Str.isspace c) eqn:Hb.
    + pose proof (re_split_from_nonempty Str.InSep s) as Hne.
      destruct (Str.re_split_from Str.InSep s) as [|p rest] eqn:Hs; [congruence|].
      split; [right; split; [reflexivity | now apply andb_true_iff in Hb] | exact IHs].
    + destruct (Str.push c _) as [|p rest]; [exact I|].
      destruct rest; [exact I|]. destruct Hpush as [Hp Hrest]. split; [now left | exact Hrest].
  - simpl. destruct (Str.isspace c); [exact IHs|].
    destruct (Str.push c _) as [|p rest]; [exact I|].
    destruct rest; [exact I | exact Hpush].
Qed.

Lemma ends_with_space_tail (c : ascii) (s : string) :
  ends_with_space (String c s) = false -> s <> "" -> ends_with_space s = false.
Proof. destruct s; [congruence | simpl; auto]. Qed.

Lemma re_split_pieces_nonempty (s : string) :
  ends_with_space s = false ->
  (forall b, Forall (fun p => p <> "") (tail (Str.re_split_from (Str.InPiece b) s))) /\
  (s <> "" -> Forall (fun p => p <> "") (Str.re_split_from Str.InSep s)).
Proof.
  induction s as [|c s IH]; intros Hend.
  - split; [intros b; constructor | congruence].
  - assert (Htail : s <> "" -> ends_with_space s = false)
      by (apply (ends_with_space_tail c); exact Hend).
    assert (Hs : ends_with_space s = false)
      by (destruct s; [reflexivity | apply Htail; discriminate]).
    destruct (IH Hs) as [IHp IHs].
    assert (Hpush : Forall (fun p => p <> "")
              (Str.push c (Str.re_split_from (Str.InPiece (Str.is_terminator c)) s))).
    { specialize (IHp (Str.is_terminator c)).
      destruct (Str.re_split_from (Str.InPiece (Str.is_terminator c)) s) as [|p rest];
        simpl; (constructor; [discriminate|]); [constructor | exact IHp]. }
    assert (Hsp : Str.isspace c = true -> s <> "").
    { intros Hc ->. simpl in Hend. congruence. }
    split.
    + intros b. simpl. destruct (b && Str.isspace c) eqn:Hb.
      * simpl. apply IHs, Hsp. now apply andb_true_iff in Hb.
      * revert Hpush. generalize (Str.push c (Str.re_split_from
                                      (Str.InPiece (Str.is_terminator c)) s)).
        intros [|p rest] H; [constructor | now apply Forall_cons_1 in H as [_ H]].
    + intros _. simpl. destruct (Str.isspace c) eqn:Hc; [now apply IHs, Hsp | exact Hpush].
Qed.

Lemma rstrip_no_trailing_space (s : string) : ends_with_space (Str.rstrip s) = false.
Proof.
  induction s as [|c s IH]; [reflexivity|]. simpl.
  destruct (Str.rstrip s) as [|c' r] eqn:Hr.
  - destruct (Str.isspace c) eqn:Hc; [reflexivity | simpl; exact Hc].
  - exact IH.
Qed.

Section CiteValidateMore.

Context {F : Type}.

(** X11.  Without citations no sentence is covered and the coverage is
    0: the denominator floor makes the empty anchor set well defined. *)
Theorem validate_without_citations (text : string) :
  exists pct details,
    cite_validate (F:=F) (JStr text) (JArr [])
      = Ok (Dumps (ValidatePayload pct details)) /\
    Forall (fun d => covered d = false) details /\
    (pct == 0)%Q.
Proof.
  change (JArr []) with (JArr (map JStr [])). rewrite cite_validate_strings. simpl.
  eexists _, _. split; [reflexivity|].
  assert (Hall : Forall (fun d => covered d = false)
                   (coverage (Str.re_split (Str.strip text)) (anchors []))).
  { unfold coverage, anchors. simpl. rewrite elements_empty.
    apply Forall_forall. intros d Hd.
    apply list_elem_of_In, in_map_iff in Hd as (s & <- & _). reflexivity. }
  split; [exact Hall|].
  unfold cov_pct. apply filter_covered_none in Hall. rewrite Hall. reflexivity.
Qed.

(** X12.  The result depends on the citations only as a set: their order
    and their repetitions make no difference. *)
Theorem validate_depends_on_citation_set (text : string) (c1 c2 : list string) :
  (forall a, a ∈ c1 <-> a ∈ c2) ->
  cite_validate (F:=F) (JStr text) (JArr (map JStr c1))
  = cite_validate (F:=F) (JStr text) (JArr (map JStr c2)).
Proof.
  intros Hsame. rewrite !cite_validate_strings.
  assert (Ha : anchors c1 = anchors c2).
  { apply set_eq. intros a. rewrite !elem_of_anchors. apply Hsame. }
  now rewrite Ha.
Qed.

(** X13.  Every call on a text and citation strings returns at least one
    detail and a coverage between 0 and 100; the coverage is 100 exactly
    when every sentence is covered and 0 exactly when none is. *)
Theorem coverage_pct_bounds (text : string) (citations : list string) :
  exists pct details,
    cite_validate (F:=F) (JStr text) (JArr (map JStr citations))
      = Ok (Dumps (ValidatePayload pct details)) /\
    details <> [] /\
    (0 <= pct)%Q /\ (pct <= 100)%Q /\
    ((pct == 100)%Q <-> Forall (fun d => covered d = true) details) /\
    ((pct == 0)%Q <-> Forall (fun d => covered d = false) details).
Proof.
  rewrite cite_validate_strings. simpl. eexists _, _. split; [reflexivity|].
  set (details := coverage (Str.re_split (Str.strip text)) (anchors citations)).
  assert (Hlen : 1 <= List.length details).
  { unfold details. rewrite coverage_length. unfold Str.re_split.
    pose proof (re_split_from_nonempty (Str.InPiece false) (Str.strip text)) as Hne.
    destruct (Str.re_split_from _ _); [congruence | simpl; lia]. }
  split; [intros H; rewrite H in Hlen; simpl in Hlen; lia|].
  pose proof (length_filter (fun c => covered c = true) details) as Hle.
  destruct (percentage_facts _ _ Hle Hlen) as (H0 & H100 & Hfull & Hnone).
  unfold cov_pct. repeat split; try assumption.
  - intros H. now apply filter_covered_all, Hfull.
  - intros H. now apply Hfull, filter_covered_all.
  - intros H. now apply filter_covered_none, Hnone.
  - intros H. now apply Hnone, filter_covered_none.
Qed.

(** X14.  Every sentence except the last one ends with [.], [!] or [?]:
    the text is only ever cut directly behind one of these. *)
Theorem sentences_end_with_terminator (text : string) (citations : list string) :
  exists pct details,
    cite_validate (F:=F) (JStr text) (JArr (map JStr citations))
      = Ok (Dumps (ValidatePayload pct details)) /\
    all_but_last (fun s => ends_with_terminator s = true) (map sentence details).
Proof.
  rewrite cite_validate_strings. simpl. eexists _, _. split; [reflexivity|].
  rewrite coverage_sentences. unfold Str.re_split.
  destruct (re_split_all_but_last (Str.strip text)) as [H _]. specialize (H false).
  destruct (Str.re_split_from _ _) as [|p rest]; [exact I|].
  destruct rest; [exact I|]. destruct H as [[H | [_ H]] Hrest]; [|discriminate].
  split; assumption.
Qed.

(** X15.  For a text that is not blank no sentence is the empty string:
    stripping removes the trailing white space that would leave an empty
    last piece. *)
Theorem sentences_are_nonempty (text : string) (citations : list string) :
  Str.strip text <> "" ->
  exists pct details,
    cite_validate (F:=F) (JStr text) (JArr (map JStr citations))
      = Ok (Dumps (ValidatePayload pct details)) /\
    Forall (fun d => sentence d <> "") details.
Proof.
  intros Hne. rewrite cite_validate_strings. simpl. eexists _, _. split; [reflexivity|].
  assert (Hs : Forall (fun p => p <> "") (Str.re_split (Str.strip text))).
  { unfold Str.re_split, Str.strip in *.
    pose proof (rstrip_no_trailing_space (Str.lstrip text)) as Hend.
    destruct (re_split_pieces_nonempty _ Hend) as [Htl _]. specialize (Htl false).
    destruct (Str.rstrip (Str.lstrip text)) as [|c r]; [congruence|].
    simpl in *. destruct (Str.re_split_from (Str.InPiece (Str.is_terminator c)) r);
      simpl in *; constructor; try discriminate; assumption. }
  unfold coverage. apply List.Forall_map. simpl. exact Hs.
Qed.

End CiteValidateMore.

(** ** Retrieval, continued *)

Section SearchMore.

Context {F : Type} {E : Externals F}.
Variable R : resources F.

(** The section ids of the document table. *)
Definition known_ids : list string := map section_id (doc_meta R).

Lemma bm25_cands_facts (scores : list F) (idxs : list nat) (l : list (string * F)) :
  bm25_cands R scores idxs = Ok l ->
  Forall (fun p => flt f0 (snd p) = true /\ fst p ∈ known_ids) l.
Proof.
  revert l. induction idxs as [|i idxs IH]; intros l; simpl.
  - intros [= <-]. constructor.
  - destruct (scores !! i) as [s|]; [|discriminate].
    destruct (flt f0 s) eqn:Hs; [|exact (IH l)].
    destruct (doc_meta R !! i) as [m|] eqn:Hm; [|discriminate].
    intros H. apply bind_Ok in H as (tl & Htl & [= <-]).
    constructor; [|now apply IH]. simpl. split; [exact Hs|].
    unfold known_ids. apply list_elem_of_In, in_map, list_elem_of_In.
    eapply list_elem_of_lookup_2. exact Hm.
Qed.

Lemma dense_candidates_facts (pairs : list (F * Z)) (l : list (string * F)) :
  dense_candidates R pairs = Ok l ->
  Forall (fun p => fst p ∈ known_ids /\
                   exists idx, (snd p, idx) ∈ pairs /\ (0 <= idx)%Z) l.
Proof.
  revert l. induction pairs as [|[score idx] pairs IH]; intros l; simpl.
  - intros [= <-]. constructor.
  - assert (Hweak : forall l',
      Forall (fun p => fst p ∈ known_ids /\
                       exists idx, (snd p, idx) ∈ pairs /\ (0 <= idx)%Z) l' ->
      Forall (fun p => fst p ∈ known_ids /\
                       exists idx', (snd p, idx') ∈ (score, idx) :: pairs /\ (0 <= idx')%Z) l').
    { intros l' Hl'. eapply Forall_impl; [exact Hl'|]. intros p (Hp & idx' & Hin & Hpos).
      split; [exact Hp|]. exists idx'. split; [|exact Hpos]. apply elem_of_cons. now right. }
    destruct (idx <? 0)%Z eqn:Hneg; [intros H; now apply Hweak, IH|].
    destruct (doc_meta R !! Z.to_nat idx) as [m|] eqn:Hm; [|discriminate].
    intros H. apply bind_Ok in H as (tl & Htl & [= <-]).
    constructor; [|now apply Hweak, IH]. simpl. split.
    + unfold known_ids. apply list_elem_of_In, in_map, list_elem_of_In.
      eapply list_elem_of_lookup_2. exact Hm.
    + exists idx. split; [apply elem_of_cons; now left|].
      apply Z.ltb_ge in Hneg. exact Hneg.
Qed.

Lemma dict_get_elem {V : Type} (k : string) (v : V) (d : list (string * V)) :
  NoDup (map fst d) -> (k, v) ∈ d -> dict_get k d = Some v.
Proof.
  induction d as [|[k' v'] d IH]; simpl; intros Hnd Hin.
  - now apply elem_of_nil in Hin.
  - apply NoDup_cons in Hnd as [Hk Hnd].
    apply elem_of_cons in Hin as [[= <- <-]|Hin].
    + destruct (decide (k = k)); congruence.
    + destruct (decide (k = k')) as [->|Hne]; [|now apply IH].
      exfalso. apply Hk. apply list_elem_of_In, in_map_iff. exists (k', v).
      split; [reflexivity | now apply list_elem_of_In].
Qed.

(** An entry of the fused dictionary is filed under a candidate id and
    carries the last score each side recorded for that id. *)
Lemma merged_entry (dense_cands bm25_candidates : list (string * F)) (e : fused F) :
  e ∈ dict_values (merge dense_cands bm25_candidates) ->
  (sid e ∈ map fst dense_cands \/ sid e ∈ map fst bm25_candidates) /\
  dense_score e = default f0 (last_score (sid e) dense_cands) /\
  bm25_score e = default f0 (last_score (sid e) bm25_candidates).
Proof.
  intros He. unfold dict_values in He.
  apply list_elem_of_In, in_map_iff in He as ([k e'] & Heq & Hin). simpl in Heq. subst e'.
  apply list_elem_of_In in Hin.
  destruct (merge_well_keyed dense_cands bm25_candidates) as [Hnd Hall].
  assert (Hk : sid e = k).
  { rewrite Forall_forall in Hall. exact (Hall _ Hin). }
  pose proof (dict_get_elem _ _ _ Hnd Hin) as Hget. subst k. clear Hin.
  remember (sid e) as s eqn:Hs. rewrite merge_get in Hget.
  destruct (last_score s dense_cands) as [d|] eqn:Hd;
    destruct (last_score s bm25_candidates) as [b|] eqn:Hb;
    try discriminate; injection Hget as <-; simpl; repeat split; try reflexivity.
  - left. apply last_score_Some in Hd. apply list_elem_of_In, in_map_iff.
    exists (s, d). split; [reflexivity | now apply list_elem_of_In].
  - left. apply last_score_Some in Hd. apply list_elem_of_In, in_map_iff.
    exists (s, d). split; [reflexivity | now apply list_elem_of_In].
  - right. apply last_score_Some in Hb. apply list_elem_of_In, in_map_iff.
    exists (s, b). split; [reflexivity | now apply list_elem_of_In].
Qed.

Lemma insert_desc_perm {A : Type} (key : A -> F) (x : A) (l : list A) :
  insert_desc key x l ≡ₚ x :: l.
Proof.
  induction l as [|y l IH]; simpl; [reflexivity|].
  destruct (flt (key x) (key y)); [|reflexivity].
  rewrite IH. apply Permutation_swap.
Qed.

Lemma sorted_reverse_perm {A : Type} (key : A -> F) (l : list A) :
  sorted_reverse key l ≡ₚ l.
Proof.
  unfold sorted_reverse. induction l as [|x l IH]; simpl; [reflexivity|].
  rewrite insert_desc_perm. now rewrite IH.
Qed.

Lemma slice_to_sublist {A : Type} (k : Z) (l : list A) : slice_to k l `sublist_of` l.
Proof. unfold slice_to. destruct (0 <=? k)%Z; apply sublist_take. Qed.

(** The entries that are ranked and kept are entries of [merged]. *)
Lemma kept_entries (k : Z) (merged : list (string * fused F)) (e : fused F) :
  e ∈ slice_to k (sorted_reverse combined (dict_values merged)) ->
  e ∈ dict_values merged.
Proof.
  intros He. rewrite <- (sorted_reverse_perm combined).
  eapply sublist_subseteq; [apply slice_to_sublist | exact He].
Qed.

Lemma sop_search_inv (q : string) (k : Z) (r : tool_result F) :
  sop_search R (JStr q) (JInt k) = Ok r ->
  exists bm25_candidates pairs dense_cands out,
    bm25_cands R (bm25_get_scores R (Str.split_ws q))
      (slice_to k (rev (argsort (bm25_get_scores R (Str.split_ws q)))))
      = Ok bm25_candidates /\
    faiss_search R q k = Ok pairs /\
    dense_candidates R pairs = Ok dense_cands /\
    mapM (add_neighbors R)
      (map (make_hit R)
         (slice_to k
            (sorted_reverse combined
               (dict_values (merge dense_cands bm25_candidates))))) = Ok out /\
    r = Dumps (SearchPayload q out).
Proof.
  unfold sop_search. simpl. intros H.
  apply bind_Ok in H as (bm & Hbm & H).
  apply bind_Ok in H as (pairs & Hpairs & H).
  apply bind_Ok in H as (dc & Hdc & H).
  apply bind_Ok in H as (out & Hout & [= <-]).
  now exists bm, pairs, dc, out.
Qed.

Lemma add_neighbors_fields (h : hit F) (item : search_item F) :
  add_neighbors R h = Ok item ->
  dense item = hit_dense h /\ bm25 item = hit_bm25 h /\ excerpt item = hit_excerpt h.
Proof.
  unfold add_neighbors. intros H. apply bind_Ok in H as (ns & _ & [= <-]).
  repeat split.
Qed.

(** How each returned item comes from the fused entry it was made of. *)
Lemma enrich_Forall2 (entries : list (fused F)) (out : list (search_item F)) :
  mapM (add_neighbors R) (map (make_hit R) entries) = Ok out ->
  Forall2 (fun e item =>
             r_section_id item = sid e /\ dense item = dense_score e /\
             bm25 item = bm25_score e /\ excerpt item = hit_excerpt (make_hit R e) /\
             exists n, kg R !! sid e = Some n /\ neighbors item = take 3 (succ n))
          entries out.
Proof.
  intros H. apply mapM_Forall2, Forall2_fmap_l in H.
  eapply Forall2_impl; [exact H|]. clear H. intros e item H.
  destruct (add_neighbors_fields _ _ H) as (Hd & Hb & He).
  destruct (add_neighbors_node R _ _ H) as (Hid & n & Hn & Hnb).
  change (hit_section_id (make_hit R e)) with (sid e) in Hid.
  change (hit_dense (make_hit R e)) with (dense_score e) in Hd.
  change (hit_bm25 (make_hit R e)) with (bm25_score e) in Hb.
  rewrite Hid in Hn. do 4 (split; [assumption|]). now exists n.
Qed.

Lemma find_known (s : string) :
  s ∈ known_ids ->
  exists m, find (fun m => bool_decide (section_id m = s)) (doc_meta R) = Some m.
Proof.
  unfold known_ids. induction (doc_meta R) as [|m l IH]; simpl; intros Hin.
  - now apply elem_of_nil in Hin.
  - destruct (bool_decide (section_id m = s)) eqn:Hm; [now exists m|].
    apply elem_of_cons in Hin as [Hin|Hin]; [|now apply IH].
    apply bool_decide_eq_false_1 in Hm. congruence.
Qed.

Lemma take_string_length (n : nat) (s : string) : String.length (Str.take n s) <= n.
Proof.
  revert s. induction n as [|n IH]; intros s; simpl; [lia|].
  destruct s; simpl; [lia|]. specialize (IH s). lia.
Qed.

(** What every item of a successful search is made of. *)
Lemma search_item_provenance (q : string) (k : Z) (q' : string)
    (out : list (search_item F)) :
  sop_search R (JStr q) (JInt k) = Ok (Dumps (SearchPayload q' out)) ->
  exists bm25_candidates pairs dense_cands entries,
    bm25_cands R (bm25_get_scores R (Str.split_ws q))
      (slice_to k (rev (argsort (bm25_get_scores R (Str.split_ws q)))))
      = Ok bm25_candidates /\
    faiss_search R q k = Ok pairs /\
    dense_candidates R pairs = Ok dense_cands /\
    entries = slice_to k (sorted_reverse combined
                            (dict_values (merge dense_cands bm25_candidates))) /\
    Forall2 (fun e item =>
               r_section_id item = sid e /\ dense item = dense_score e /\
               bm25 item = bm25_score e /\ excerpt item = hit_excerpt (make_hit R e) /\
               exists n, kg R !! sid e = Some n /\ neighbors item = take 3 (succ n))
            entries out.
Proof.
  intros H. apply sop_search_inv in H as (bm & pairs & dc & out' & Hbm & Hp & Hdc & Hout & [= _ <-]).
  exists bm, pairs, dc,
    (slice_to k (sorted_reverse combined (dict_values (merge dc bm)))).
  do 4 (split; [assumption || reflexivity|]). now apply enrich_Forall2.
Qed.

Lemma Forall2_elem_r {A B : Type} (P : A -> B -> Prop) (l : list A) (l' : list B) (y : B) :
  Forall2 P l l' -> y ∈ l' -> exists x, x ∈ l /\ P x y.
Proof.
  induction 1 as [|a b l l' Hab Hl IH]; intros Hy.
  - now apply elem_of_nil in Hy.
  - apply elem_of_cons in Hy as [->|Hy].
    + exists a. split; [apply elem_of_cons; now left | exact Hab].
    + destruct (IH Hy) as (x & Hx & HP). exists x. split; [apply elem_of_cons; now right | exact HP].
Qed.

Lemma NoDup_map_sublist {A B : Type} (f : A -> B) (l1 l2 : list A) :
  l1 `sublist_of` l2 -> NoDup (map f l2) -> NoDup (map f l1).
Proof.
  intros Hsub. induction Hsub as [|x l1 l2 Hsub IH|x l1 l2 Hsub IH]; simpl; intros Hnd.
  - constructor.
  - apply NoDup_cons in Hnd as [Hx Hnd]. apply NoDup_cons. split; [|now apply IH].
    intros Hin. apply Hx. apply list_elem_of_In, in_map_iff in Hin as (y & Hy & Hin).
    apply list_elem_of_In, in_map_iff. exists y. split; [exact Hy|].
    apply list_elem_of_In. apply (sublist_subseteq _ _ Hsub). now apply list_elem_of_In.
  - apply NoDup_cons in Hnd as [_ Hnd]. now apply IH.
Qed.

(** X16.  The results of a search name each section at most once. *)
Theorem search_results_distinct (q : string) (k : Z) (q' : string)
    (out : list (search_item F)) :
  sop_search R (JStr q) (JInt k) = Ok (Dumps (SearchPayload q' out)) ->
  NoDup (map r_section_id out).
Proof.
  intros H.
  apply search_item_provenance in H as (bm & pairs & dc & entries & _ & _ & _ & -> & Hall).
  assert (Hids : map r_section_id out
                 = map sid (slice_to k (sorted_reverse combined (dict_values (merge dc bm))))).
  { induction Hall as [|e item l l' (Hid & _) Hl IH]; simpl; [reflexivity|].
    now rewrite Hid, IH. }
  rewrite Hids.
  destruct (merge_well_keyed dc bm) as [Hnd Hkeys].
  assert (Hsid : map sid (dict_values (merge dc bm)) = map fst (merge dc bm)).
  { unfold dict_values. rewrite map_map. apply map_ext_Forall.
    eapply Forall_impl; [exact Hkeys | auto]. }
  rewrite <- Hsid in Hnd.
  apply (NoDup_map_sublist sid _ _ (slice_to_sublist k _)).
  assert (Hperm : map sid (sorted_reverse combined (dict_values (merge dc bm)))
                  ≡ₚ map sid (dict_values (merge dc bm)))
    by apply Permutation_map, sorted_reverse_perm.
  rewrite Hperm. exact Hnd.
Qed.

(** X17.  Every result of a search has a node in the graph; its excerpt
    is the first 300 characters of the node's text (empty when the node has
    no text), and its neighbours are the first three successors of the
    node.  The lookup of the section in the document table never misses. *)
Theorem search_result_enrichment (q : string) (k : Z) (q' : string)
    (out : list (search_item F)) (item : search_item F) :
  sop_search R (JStr q) (JInt k) = Ok (Dumps (SearchPayload q' out)) ->
  item ∈ out ->
  r_section_id item ∈ known_ids /\
  exists n,
    kg R !! r_section_id item = Some n /\
    excerpt item = Str.take 300 (default "" (attrs n !! "text")) /\
    String.length (excerpt item) <= 300 /\
    neighbors item = take 3 (succ n) /\
    List.length (neighbors item) <= 3.
Proof.
  intros H Hitem.
  apply search_item_provenance in H
    as (bm & pairs & dc & entries & Hbm & _ & Hdc & -> & Hall).
  destruct (Forall2_elem_r _ _ _ _ Hall Hitem)
    as (e & He & Hid & _ & _ & Hex & n & Hn & Hnb).
  apply kept_entries, merged_entry in He as (Hcand & _ & _).
  assert (Hknown : sid e ∈ known_ids).
  { apply bm25_cands_facts in Hbm. apply dense_candidates_facts in Hdc.
    rewrite Forall_forall in Hbm, Hdc.
    destruct Hcand as [Hc|Hc]; apply list_elem_of_In, in_map_iff in Hc as (p & <- & Hp);
      apply list_elem_of_In in Hp.
    - now apply Hdc.
    - now apply Hbm. }
  rewrite Hid. split; [exact Hknown|]. exists n. split; [exact Hn|].
  assert (Hexc : excerpt item = Str.take 300 (default "" (attrs n !! "text"))).
  { rewrite Hex. unfold make_hit. simpl.
    destruct (find_known _ Hknown) as (m & ->). rewrite Hn.
    now destruct (attrs n !! "text"). }
  split; [exact Hexc|]. split; [rewrite Hexc; apply take_string_length|].
  split; [exact Hnb|]. rewrite Hnb, length_take. lia.
Qed.

(** X18.  The scores of a result are candidate scores or [0.0]: its
    lexical score is [0.0] or strictly positive, and its dense score is
    [0.0] or a score the vector index returned in a slot that is not the
    negative sentinel. *)
Theorem search_scores_are_candidate_scores (q : string) (k : Z) (q' : string)
    (out : list (search_item F)) (item : search_item F) :
  sop_search R (JStr q) (JInt k) = Ok (Dumps (SearchPayload q' out)) ->
  item ∈ out ->
  (bm25 item = f0 \/ flt f0 (bm25 item) = true) /\
  (dense item = f0 \/
   exists pairs idx,
     faiss_search R q k = Ok pairs /\ (dense item, idx) ∈ pairs /\ (0 <= idx)%Z).
Proof.
  intros H Hitem.
  apply search_item_provenance in H
    as (bm & pairs & dc & entries & Hbm & Hp & Hdc & -> & Hall).
  destruct (Forall2_elem_r _ _ _ _ Hall Hitem) as (e & He & _ & Hd & Hb & _).
  apply kept_entries, merged_entry in He as (_ & Hde & Hbe).
  rewrite Hd, Hb, Hde, Hbe. split.
  - destruct (last_score (sid e) bm) as [b|] eqn:Hl; [|now left].
    right. apply last_score_Some in Hl. apply bm25_cands_facts in Hbm.
    rewrite Forall_forall in Hbm. now apply (Hbm _ Hl).
  - destruct (last_score (sid e) dc) as [d|] eqn:Hl; [|now left].
    right. apply last_score_Some in Hl. apply dense_candidates_facts in Hdc.
    rewrite Forall_forall in Hdc. destruct (Hdc _ Hl) as (_ & idx & Hin & Hpos).
    now exists pairs, idx.
Qed.

End SearchMore.

Section SearchTotal.

Context {F : Type} {E : Externals F}.
Variable R : resources F.

Lemma StronglySorted_app_elem {A : Type} (P : A -> A -> Prop) (l1 l2 : list A) (x y : A) :
  StronglySorted P (l1 ++ l2) -> x ∈ l1 -> y ∈ l2 -> P x y.
Proof.
  induction l1 as [|a l1 IH]; simpl; intros Hs Hx Hy.
  - now apply elem_of_nil in Hx.
  - apply StronglySorted_inv in Hs as [Hs Ha].
    apply elem_of_cons in Hx as [->|Hx]; [|now apply IH].
    rewrite Forall_forall in Ha. apply Ha. apply elem_of_app. now right.
Qed.

(** X19.  With [<] a strict weak order on scores and [k >= 0], the
    ranking keeps the best: the fused entries are split into the [k] that
    are kept and the rest, and no entry that is left out has a combined
    score above that of an entry that is kept. *)
Theorem ranking_keeps_the_best (merged : list (string * fused F)) (k : Z) :
  (forall x y : F, flt x y = true -> flt y x = false) ->
  (forall x y z : F, flt x y = false -> flt y z = false -> flt x z = false) ->
  (0 <= k)%Z ->
  let ranked := sorted_reverse combined (dict_values merged) in
  let kept := slice_to k ranked in
  let left_out := drop (Z.to_nat k) ranked in
  kept ++ left_out ≡ₚ dict_values merged /\
  forall x y, x ∈ kept -> y ∈ left_out -> flt (combined x) (combined y) = false.
Proof.
  intros Hasym Hneg Hk ranked kept left_out.
  assert (Happ : kept ++ left_out = ranked).
  { unfold kept, left_out, slice_to. rewrite (proj2 (Z.leb_le 0 k) Hk).
    apply take_drop. }
  split.
  - rewrite Happ. apply sorted_reverse_perm.
  - intros x y Hx Hy.
    apply (StronglySorted_app_elem
             (fun a b => flt (combined a) (combined b) = false) kept left_out);
      [|exact Hx|exact Hy].
    rewrite Happ. apply (sorted_reverse_sorted Hasym Hneg).
Qed.

Lemma bm25_cands_ok (scores : list F) (idxs : list nat) :
  List.length scores <= List.length (doc_meta R) ->
  (forall i, i ∈ idxs -> i < List.length scores) ->
  exists l, bm25_cands R scores idxs = Ok l.
Proof.
  intros Halign. induction idxs as [|i idxs IH]; intros Hidx; simpl; [now exists []|].
  destruct IH as (l & Hl); [intros j Hj; apply Hidx, elem_of_cons; now right|].
  assert (Hi : i < List.length scores) by (apply Hidx, elem_of_cons; now left).
  destruct (lookup_lt_is_Some_2 scores i Hi) as (s & ->).
  destruct (flt f0 s); [|now exists l].
  destruct (lookup_lt_is_Some_2 (doc_meta R) i) as (m & ->); [lia|].
  rewrite Hl. simpl. eauto.
Qed.

Lemma dense_candidates_ok (pairs : list (F * Z)) :
  (forall s idx, (s, idx) ∈ pairs -> (idx < Z.of_nat (List.length (doc_meta R)))%Z) ->
  exists l, dense_candidates R pairs = Ok l.
Proof.
  induction pairs as [|[s idx] pairs IH]; intros Hidx; simpl; [now exists []|].
  destruct IH as (l & Hl); [intros s' j Hj; apply (Hidx s'), elem_of_cons; now right|].
  destruct (idx <? 0)%Z eqn:Hneg; [now exists l|].
  apply Z.ltb_ge in Hneg.
  destruct (lookup_lt_is_Some_2 (doc_meta R) (Z.to_nat idx)) as (m & ->).
  { specialize (Hidx s idx). rewrite elem_of_cons in Hidx.
    assert (idx < Z.of_nat (List.length (doc_meta R)))%Z by (apply Hidx; now left). lia. }
  rewrite Hl. simpl. eauto.
Qed.

Lemma mapM_add_neighbors_ok (hits : list (hit F)) :
  Forall (fun h => is_Some (kg R !! hit_section_id h)) hits ->
  exists out, mapM (add_neighbors R) hits = Ok out.
Proof.
  induction 1 as [|h hits [n Hn] Hhits (out & Hout)]; simpl; [now exists []|].
  unfold add_neighbors at 1, successors. rewrite Hn. simpl. rewrite Hout. simpl. eauto.
Qed.

(** X20.  A search returns a result (it does not raise) whenever the
    store is well formed for it: [argsort] gives positions of the score
    list, every scored position has an entry in the document table, the
    vector index answers with positions inside the table (or the negative
    sentinel), and every section of the table has a node in the graph. *)
Theorem search_returns_on_well_formed_store
    (q : string) (k : Z) (pairs : list (F * Z)) :
  let scores := bm25_get_scores R (Str.split_ws q) in
  (forall i, i ∈ argsort scores -> i < List.length scores) ->
  List.length scores <= List.length (doc_meta R) ->
  faiss_search R q k = Ok pairs ->
  (forall s idx, (s, idx) ∈ pairs -> (idx < Z.of_nat (List.length (doc_meta R)))%Z) ->
  (forall m, m ∈ doc_meta R -> is_Some (kg R !! section_id m)) ->
  exists out, sop_search R (JStr q) (JInt k) = Ok (Dumps (SearchPayload q out)).
Proof.
  intros scores Hargsort Halign Hfaiss Hpairs Hgraph.
  destruct (bm25_cands_ok scores (slice_to k (rev (argsort scores))) Halign)
    as (bm & Hbm).
  { intros i Hi. apply Hargsort.
    apply (sublist_subseteq _ _ (slice_to_sublist k _)) in Hi.
    apply list_elem_of_In, in_rev, list_elem_of_In. exact Hi. }
  destruct (dense_candidates_ok pairs Hpairs) as (dc & Hdc).
  destruct (mapM_add_neighbors_ok
              (map (make_hit R)
                 (slice_to k (sorted_reverse combined (dict_values (merge dc bm))))))
    as (out & Hout).
  { apply List.Forall_map. apply Forall_forall. intros e He.
    change (hit_section_id (make_hit R e)) with (sid e).
    apply kept_entries, merged_entry in He as (Hcand & _ & _).
    assert (Hknown : sid e ∈ known_ids R).
    { apply bm25_cands_facts in Hbm. apply dense_candidates_facts in Hdc.
      rewrite Forall_forall in Hbm, Hdc.
      destruct Hcand as [Hc|Hc];
        apply list_elem_of_In, in_map_iff in Hc as (p & <- & Hp);
        apply list_elem_of_In in Hp.
      - now apply Hdc.
      - now apply Hbm. }
    unfold known_ids in Hknown.
    apply list_elem_of_In, in_map_iff in Hknown as (m & <- & Hm).
    apply Hgraph. now apply list_elem_of_In. }
  exists out. unfold sop_search. simpl. fold scores.
  rewrite Hbm. simpl. rewrite Hfaiss. simpl. rewrite Hdc. simpl.
  rewrite Hout. reflexivity.
Qed.

Lemma bm25_cands_raise (scores : list F) (idxs : list nat) (e : exn) :
  bm25_cands R scores idxs = Raise e -> kind e = IndexError.
Proof.
  induction idxs as [|i idxs IH]; simpl; [discriminate|].
  destruct (scores !! i) as [s|]; [|intros [= <-]; reflexivity].
  destruct (flt f0 s); [|exact IH].
  destruct (doc_meta R !! i); [|intros [= <-]; reflexivity].
  destruct (bm25_cands R scores idxs); simpl; [discriminate|].
  intros [= <-]. now apply IH.
Qed.

Lemma dense_candidates_out_of_range (pairs : list (F * Z)) (s : F) (idx : Z) :
  (s, idx) ∈ pairs ->
  (Z.of_nat (List.length (doc_meta R)) <= idx)%Z ->
  exists e, dense_candidates R pairs = Raise e /\ kind e = IndexError.
Proof.
  intros Hin Hbig. induction pairs as [|[s' idx'] pairs IH]; simpl.
  - now apply elem_of_nil in Hin.
  - apply elem_of_cons in Hin as [[= -> ->]|Hin].
    + rewrite (proj2 (Z.ltb_ge idx' 0)) by lia.
      rewrite lookup_ge_None_2 by lia. eauto.
    + destruct (IH Hin) as (e & He & Hk).
      destruct (idx' <? 0)%Z; [eauto|].
      destruct (doc_meta R !! Z.to_nat idx'); [|eauto].
      rewrite He. simpl. eauto.
Qed.

(** X21.  The alignment of the vector index with the document table is
    not checked when the resources are loaded: if the index answers with a
    position beyond the table, the search raises [IndexError]. *)
Theorem search_raises_on_position_beyond_table
    (q : string) (k : Z) (pairs : list (F * Z)) (s : F) (idx : Z) :
  faiss_search R q k = Ok pairs ->
  (s, idx) ∈ pairs ->
  (Z.of_nat (List.length (doc_meta R)) <= idx)%Z ->
  exists e, sop_search R (JStr q) (JInt k) = Raise e /\ kind e = IndexError.
Proof.
  intros Hfaiss Hin Hbig. unfold sop_search. simpl.
  destruct (bm25_cands R _ _) as [bm|e] eqn:Hbm; simpl.
  - rewrite Hfaiss. simpl.
    destruct (dense_candidates_out_of_range pairs s idx Hin Hbig) as (e & -> & Hk).
    simpl. eauto.
  - exists e. split; [reflexivity | now apply bm25_cands_raise in Hbm].
Qed.

(** X22.  Slots of the vector index answer that carry a negative
    position contribute nothing: the dense candidates are those of the
    answer with these slots removed. *)
Theorem negative_positions_are_skipped (pairs : list (F * Z)) :
  dense_candidates R pairs
  = dense_candidates R (filter (fun p => (0 <= snd p)%Z) pairs).
Proof.
  induction pairs as [|[s idx] pairs IH]; simpl; [reflexivity|].
  destruct (idx <? 0)%Z eqn:Hneg.
  - apply Z.ltb_lt in Hneg. rewrite filter_cons_False by (simpl; lia). exact IH.
  - apply Z.ltb_ge in Hneg. rewrite filter_cons_True by (simpl; lia). simpl.
    rewrite (proj2 (Z.ltb_ge idx 0)) by lia. now rewrite IH.
Qed.

(** X23.  [_get_section_text] finds the first entry of the document
    table with the given id, and returns it with its name and title; it
    returns three [None] exactly when no entry has the id. *)
Theorem get_section_text_first_match (s : string) :
  match _get_section_text R s with
  | (Some m, name, ttl) =>
      name = section_name m /\ ttl = title m /\ section_id m = s /\
      exists before after,
        doc_meta R = before ++ m :: after /\
        Forall (fun m' => section_id m' <> s) before
  | (None, name, ttl) => name = None /\ ttl = None /\ s ∉ known_ids R
  end.
Proof.
  unfold _get_section_text, known_ids.
  induction (doc_meta R) as [|m l IH]; simpl.
  - repeat split. apply not_elem_of_nil.
  - destruct (bool_decide (section_id m = s)) eqn:Hm.
    + apply bool_decide_eq_true_1 in Hm. do 3 (split; [reflexivity || exact Hm|]).
      exists [], l. split; [reflexivity | constructor].
    + apply bool_decide_eq_false_1 in Hm.
      destruct (find _ l) as [m'|].
      * destruct IH as (Hn & Ht & Hs & before & after & -> & Hall).
        do 3 (split; [assumption|]). exists (m :: before), after.
        split; [reflexivity | now constructor].
      * destruct IH as (_ & _ & Hnot). repeat split.
        rewrite not_elem_of_cons. split; [congruence | exact Hnot].
Qed.

End SearchTotal.

(** ** Startup *)

Section StartupProps.

Context {F : Type} {E : Externals F}.
Variables Bm25 Index Model : Type.
Variable get_scores : Bm25 -> list string -> list F.
Variable search : Model -> Index -> string -> Z -> res (list (F * Z)).

(** X24.  When the vector index file is missing, loading fails with the
    instruction to run the indexer, whatever the other files hold, and the
    process writes nothing to standard output. *)
Theorem missing_index_file_is_fatal (a : artifacts Bm25 Index Model) :
  faiss_path_exists a = false ->
  _load_resources Bm25 Index Model get_scores search a
    = inl "Indices not built. Run indexer.py first." /\
  forall lines, main Bm25 Index Model get_scores search a lines = [].
Proof.
  intros Hmissing.
  assert (H : _load_resources Bm25 Index Model get_scores search a
              = inl "Indices not built. Run indexer.py first.").
  { unfold _load_resources. now rewrite Hmissing. }
  split; [exact H|]. intros lines. unfold main. now rewrite H.
Qed.

(** X25.  The process serves only with all its resources: if it writes
    anything, the index file existed and each of the five loads succeeded,
    and what it writes is what [run] writes with exactly the loaded
    objects. *)
Theorem serving_needs_every_artifact (a : artifacts Bm25 Index Model)
    (lines : list string) :
  main Bm25 Index Model get_scores search a lines <> [] ->
  faiss_path_exists a = true /\
  exists doc_meta faiss_index bm25 kg model,
    load_doc_meta a = inr doc_meta /\
    read_index a = inr faiss_index /\
    load_bm25 a = inr bm25 /\
    read_gpickle a = inr kg /\
    load_model a = inr model /\
    main Bm25 Index Model get_scores search a lines =
      run {| doc_meta := doc_meta; bm25_get_scores := get_scores bm25;
             faiss_search := search model faiss_index; kg := kg |} lines.
Proof.
  unfold main, _load_resources.
  destruct (faiss_path_exists a); simpl; [|congruence].
  destruct (load_doc_meta a) as [e|dm]; [congruence|].
  destruct (read_index a) as [e|ix]; [congruence|].
  destruct (load_bm25 a) as [e|b]; [congruence|].
  destruct (read_gpickle a) as [e|g]; [congruence|].
  destruct (load_model a) as [e|m]; [congruence|].
  intros _. split; [reflexivity|]. now exists dm, ix, b, g, m.
Qed.

End StartupProps.

(** ** The further properties at work on concrete data *)

Lemma only_initialize_prints_witness :
  handle_request Demo.store Demo.initialize_request
    = Ok ([Notification "notifications/initialized" (JObj [])],
          Success (JInt 1) (Initialize "2025-03-26" "SOP MCP Server" "1.0.0")) /\
  ([Notification (F:=Q) "notifications/initialized" (JObj [])] = [] \/
   (dict_get "method" [("id", JInt 1); ("method", JStr "initialize")]
      = Some (JStr "initialize") /\
    [Notification (F:=Q) "notifications/initialized" (JObj [])]
      = [Notification "notifications/initialized" (JObj [])])).
Proof.
  split; [vm_compute; reflexivity|].
  apply (@only_initialize_prints Q Demo.externals Demo.store
           [("id", JInt 1); ("method", JStr "initialize")] _
           (Success (JInt 1) (Initialize "2025-03-26" "SOP MCP Server" "1.0.0"))).
  vm_compute; reflexivity.
Defined.

Lemma tools_list_witness :
  dict_get "method" [("id", JInt 2); ("method", JStr "tools/list"); ("params", JNull)]
    = Some (JStr "tools/list") /\
  handle_request Demo.store
    (JObj [("id", JInt 2); ("method", JStr "tools/list"); ("params", JNull)])
    = Ok ([], Success (JInt 2) (ToolsList tools)) /\
  map name tools = ["sop.search"; "sop.read"; "web.search"; "cite.validate"].
Proof.
  split; [vm_compute; reflexivity|].
  apply (@tools_list_returns_four_tools Q Demo.externals Demo.store
           [("id", JInt 2); ("method", JStr "tools/list"); ("params", JNull)]).
  vm_compute; reflexivity.
Defined.

Lemma unknown_method_witness :
  JStr "ping" <> JStr "tools/list" /\
  JStr "ping" <> JStr "tools/call" /\
  JStr "ping" <> JStr "initialize" /\
  handle_request Demo.store (JObj [("id", JInt 3); ("method", JStr "ping")])
    = Ok ([], Failure (JInt 3) (-32000) "Unknown method: ping").
Proof.
  split; [discriminate|]. split; [discriminate|]. split; [discriminate|].
  apply (@unknown_method_is_error Q Demo.externals Demo.store
           [("id", JInt 3); ("method", JStr "ping")]); vm_compute; discriminate.
Defined.

Lemma unknown_tool_witness :
  JStr "sop.delete" <> JStr "sop.search" /\
  JStr "sop.delete" <> JStr "sop.read" /\
  JStr "sop.delete" <> JStr "web.search" /\
  JStr "sop.delete" <> JStr "cite.validate" /\
  handle_request Demo.store
    (JObj [("id", JInt 4); ("method", JStr "tools/call");
           ("params", JObj [("name", JStr "sop.delete")])])
    = Ok ([], Failure (JInt 4) (-32000) "Unknown tool: sop.delete").
Proof.
  do 4 (split; [discriminate|]).
  apply (@unknown_tool_is_error Q Demo.externals Demo.store
           [("id", JInt 4); ("method", JStr "tools/call");
            ("params", JObj [("name", JStr "sop.delete")])]
           [("name", JStr "sop.delete")]);
    try (vm_compute; reflexivity); vm_compute; discriminate.
Defined.

Lemma bad_params_witness :
  (forall items, JNull <> JObj items) /\
  handle_request Demo.store
    (JObj [("id", JInt 5); ("method", JStr "tools/call"); ("params", JNull)])
    = Ok ([], Failure (JInt 5) (-32000) "'NoneType' object has no attribute 'get'").
Proof.
  split; [intros items; discriminate|].
  apply (@tools_call_with_bad_params_is_error Q Demo.externals Demo.store
           [("id", JInt 5); ("method", JStr "tools/call"); ("params", JNull)] JNull).
  - vm_compute; reflexivity.
  - vm_compute; reflexivity.
  - intros items; discriminate.
Defined.

Lemma non_object_request_witness :
  Str.strip "[1, 2]" <> "" /\
  @json_loads Q More.externals (Str.strip "[1, 2]") = inr (JArr [JInt 1; JInt 2]) /\
  (forall items, JArr [JInt 1; JInt 2] <> JObj items) /\
  run (E:=More.externals) Demo.store ["[1, 2]"; Demo.initialize_line] = [].
Proof.
  split; [vm_compute; discriminate|]. split; [vm_compute; reflexivity|].
  split; [intros items; discriminate|].
  apply (@non_object_request_ends_loop Q More.externals Demo.store "[1, 2]"
           [Demo.initialize_line] (JArr [JInt 1; JInt 2])).
  - vm_compute; discriminate.
  - vm_compute; reflexivity.
  - intros items; discriminate.
Defined.

Lemma lines_after_blank_witness :
  Str.strip "   " = "" /\
  run Demo.store ([Demo.initialize_line] ++ "   " :: [Demo.search_spill_line])
    = run Demo.store [Demo.initialize_line].
Proof.
  split; [vm_compute; reflexivity|].
  apply (@lines_after_blank_are_ignored Q Demo.externals Demo.store
           [Demo.initialize_line] [Demo.search_spill_line] "   ").
  vm_compute; reflexivity.
Defined.

Lemma one_response_per_request_witness :
  Forall2 (fun line d =>
             Str.strip line <> "" /\
             json_loads (F:=Q) (Str.strip line) = inr (JObj d))
          [Demo.initialize_line; Demo.search_no_query_line]
          [ [("id", JInt 1); ("method", JStr "initialize")];
            [("id", JInt 7); ("method", JStr "tools/call");
             ("params", JObj [("name", JStr "sop.search");
                              ("arguments", JObj [("k", JInt 2)])])] ] /\
  exists responses,
    Forall2 (fun d resp =>
               exists printed, handle_request Demo.store (JObj d) = Ok (printed, resp))
            [ [("id", JInt 1); ("method", JStr "initialize")];
              [("id", JInt 7); ("method", JStr "tools/call");
               ("params", JObj [("name", JStr "sop.search");
                                ("arguments", JObj [("k", JInt 2)])])] ]
            responses /\
    replies (run Demo.store [Demo.initialize_line; Demo.search_no_query_line])
      = responses /\
    List.length (replies (run Demo.store
                            [Demo.initialize_line; Demo.search_no_query_line]))
      = List.length [Demo.initialize_line; Demo.search_no_query_line].
Proof.
  assert (H : Forall2 (fun line d =>
             Str.strip line <> "" /\
             json_loads (F:=Q) (Str.strip line) = inr (JObj d))
          [Demo.initialize_line; Demo.search_no_query_line]
          [ [("id", JInt 1); ("method", JStr "initialize")];
            [("id", JInt 7); ("method", JStr "tools/call");
             ("params", JObj [("name", JStr "sop.search");
                              ("arguments", JObj [("k", JInt 2)])])] ]).
  { repeat (constructor;
            [split; [vm_compute; discriminate | vm_compute; reflexivity]|]).
    constructor. }
  split; [exact H|].
  exact (@one_response_per_request_in_order Q Demo.externals Demo.store _ _ H).
Defined.

Lemma web_search_disabled_witness :
  (SERPER_API_KEY (F:=Q) = None \/ SERPER_API_KEY (F:=Q) = Some "") /\
  handle_request Demo.store
    (JObj [("id", JInt 6); ("method", JStr "tools/call");
           ("params", JObj [("name", JStr "web.search");
                            ("arguments", JObj [("query", JStr "lockout")])])])
    = Ok ([], Success (JInt 6)
                (ToolCall
                   (Dumps (WebPayload (JStr "lockout") []
                      (Some "No SERPER_API_KEY configured; web.search is disabled in this environment."))))).
Proof.
  split; [left; reflexivity|].
  apply (@web_search_disabled_without_key Q Demo.externals Demo.store
           [("id", JInt 6); ("method", JStr "tools/call");
            ("params", JObj [("name", JStr "web.search");
                             ("arguments", JObj [("query", JStr "lockout")])])]
           [("name", JStr "web.search"); ("arguments", JObj [("query", JStr "lockout")])]
           [("query", JStr "lockout")]).
  - left; reflexivity.
  - vm_compute; reflexivity.
  - vm_compute; reflexivity.
  - vm_compute; reflexivity.
  - vm_compute; reflexivity.
Defined.

Lemma citation_set_witness :
  (forall a : string, a ∈ ["b"; "b"; "x"] <-> a ∈ ["x"; "b"]) /\
  cite_validate (F:=Q) (JStr "A b. C d.") (JArr (map JStr ["b"; "b"; "x"]))
  = cite_validate (F:=Q) (JStr "A b. C d.") (JArr (map JStr ["x"; "b"])).
Proof.
  assert (H : forall a : string, a ∈ ["b"; "b"; "x"] <-> a ∈ ["x"; "b"]).
  { intros a. rewrite !elem_of_cons, !elem_of_nil. tauto. }
  split; [exact H|].
  exact (@validate_depends_on_citation_set Q "A b. C d." _ _ H).
Defined.

Lemma sentences_nonempty_witness :
  Str.strip "  A. B.  " <> "" /\
  exists pct details,
    cite_validate (F:=Q) (JStr "  A. B.  ") (JArr (map JStr ["A"]))
      = Ok (Dumps (ValidatePayload pct details)) /\
    Forall (fun d => sentence d <> "") details.
Proof.
  split; [vm_compute; discriminate|].
  apply (@sentences_are_nonempty Q "  A. B.  " ["A"]). vm_compute; discriminate.
Defined.

Lemma search_results_distinct_witness :
  sop_search Demo.store (JStr "lockout procedure") (JInt 2)
    = Ok (Dumps (SearchPayload "lockout procedure" Demo.lockout_results)) /\
  NoDup (map r_section_id Demo.lockout_results).
Proof.
  split; [vm_compute; reflexivity|].
  apply (@search_results_distinct Q Demo.externals Demo.store
           "lockout procedure" 2 "lockout procedure" Demo.lockout_results).
  vm_compute; reflexivity.
Defined.

Lemma search_result_enrichment_witness :
  sop_search Demo.store (JStr "lockout procedure") (JInt 2)
    = Ok (Dumps (SearchPayload "lockout procedure" Demo.lockout_results)) /\
  {| r_section_id := "SOP-001";
     excerpt := "Isolate the energy source. Apply the lock.";
     dense := (9 # 10)%Q; bm25 := (3 # 2)%Q; neighbors := ["SOP-002"] |}
    ∈ Demo.lockout_results /\
  "SOP-001" ∈ known_ids Demo.store /\
  exists n,
    kg Demo.store !! "SOP-001" = Some n /\
    "Isolate the energy source. Apply the lock."
      = Str.take 300 (default "" (attrs n !! "text")) /\
    String.length "Isolate the energy source. Apply the lock." <= 300 /\
    ["SOP-002"] = take 3 (succ n) /\
    List.length ["SOP-002"] <= 3.
Proof.
  split; [vm_compute; reflexivity|]. split; [constructor|].
  apply (@search_result_enrichment Q Demo.externals Demo.store
           "lockout procedure" 2 "lockout procedure" Demo.lockout_results
           {| r_section_id := "SOP-001";
              excerpt := "Isolate the energy source. Apply the lock.";
              dense := (9 # 10)%Q; bm25 := (3 # 2)%Q; neighbors := ["SOP-002"] |}).
  - vm_compute; reflexivity.
  - constructor.
Defined.

Lemma search_scores_witness :
  sop_search Demo.store (JStr "lockout procedure") (JInt 2)
    = Ok (Dumps (SearchPayload "lockout procedure" Demo.lockout_results)) /\
  {| r_section_id := "SOP-002"; excerpt := "";
     dense := (1 # 2)%Q; bm25 := 0%Q; neighbors := [] |}
    ∈ Demo.lockout_results /\
  (0%Q = f0 \/ flt f0 0%Q = true) /\
  ((1 # 2)%Q = f0 \/
   exists pairs idx,
     faiss_search Demo.store "lockout procedure" 2 = Ok pairs /\
     ((1 # 2)%Q, idx) ∈ pairs /\ (0 <= idx)%Z).
Proof.
  split; [vm_compute; reflexivity|].
  split; [apply elem_of_cons; right; constructor|].
  apply (@search_scores_are_candidate_scores Q Demo.externals Demo.store
           "lockout procedure" 2 "lockout procedure" Demo.lockout_results
           {| r_section_id := "SOP-002"; excerpt := "";
              dense := (1 # 2)%Q; bm25 := 0%Q; neighbors := [] |}).
  - vm_compute; reflexivity.
  - apply elem_of_cons; right; constructor.
Defined.

Lemma ranking_witness :
  (forall x y : Q, Demo.qlt x y = true -> Demo.qlt y x = false) /\
  (forall x y z : Q, Demo.qlt x y = false -> Demo.qlt y z = false -> Demo.qlt x z = false) /\
  (0 <= 1)%Z /\
  slice_to 1 (sorted_reverse (E:=Demo.externals) combined (dict_values More.fused_three))
    ++ drop (Z.to_nat 1)
         (sorted_reverse (E:=Demo.externals) combined (dict_values More.fused_three))
    ≡ₚ dict_values More.fused_three /\
  forall x y,
    x ∈ slice_to 1 (sorted_reverse (E:=Demo.externals) combined
                      (dict_values More.fused_three)) ->
    y ∈ drop (Z.to_nat 1)
          (sorted_reverse (E:=Demo.externals) combined (dict_values More.fused_three)) ->
    flt (combined x) (combined y) = false.
Proof.
  split; [exact qlt_asym|]. split; [exact qlt_negtrans|]. split; [lia|].
  apply (@ranking_keeps_the_best Q Demo.externals More.fused_three 1
           qlt_asym qlt_negtrans).
  lia.
Defined.

Lemma search_returns_witness :
  (forall i, i ∈ argsort (bm25_get_scores More.full_store (Str.split_ws "spill")) ->
             i < List.length (bm25_get_scores More.full_store (Str.split_ws "spill"))) /\
  List.length (bm25_get_scores More.full_store (Str.split_ws "spill"))
    <= List.length (doc_meta More.full_store) /\
  faiss_search More.full_store "spill" 3
    = Ok [(9 # 10, 0%Z); (1 # 2, 1%Z); (1 # 10, 2%Z)]%Q /\
  (forall (s : Q) idx,
      (s, idx) ∈ [(9 # 10, 0%Z); (1 # 2, 1%Z); (1 # 10, 2%Z)]%Q ->
      (idx < Z.of_nat (List.length (doc_meta More.full_store)))%Z) /\
  (forall m, m ∈ doc_meta More.full_store ->
             is_Some (kg More.full_store !! section_id m)) /\
  exists out,
    sop_search More.full_store (JStr "spill") (JInt 3)
      = Ok (Dumps (SearchPayload "spill" out)).
Proof.
  assert (H1 : forall i,
             i ∈ argsort (bm25_get_scores More.full_store (Str.split_ws "spill")) ->
             i < List.length (bm25_get_scores More.full_store (Str.split_ws "spill"))).
  { intros i Hi. vm_compute in Hi.
    repeat (apply elem_of_cons in Hi as [->|Hi]; [vm_compute; lia|]).
    now apply elem_of_nil in Hi. }
  assert (H2 : List.length (bm25_get_scores More.full_store (Str.split_ws "spill"))
               <= List.length (doc_meta More.full_store)) by (vm_compute; lia).
  assert (H3 : faiss_search More.full_store "spill" 3
               = Ok [(9 # 10, 0%Z); (1 # 2, 1%Z); (1 # 10, 2%Z)]%Q) by reflexivity.
  assert (H4 : forall (s : Q) idx,
             (s, idx) ∈ [(9 # 10, 0%Z); (1 # 2, 1%Z); (1 # 10, 2%Z)]%Q ->
             (idx < Z.of_nat (List.length (doc_meta More.full_store)))%Z).
  { intros s idx Hi.
    repeat (apply elem_of_cons in Hi as [[= -> ->]|Hi]; [vm_compute; reflexivity|]).
    now apply elem_of_nil in Hi. }
  assert (H5 : forall m, m ∈ doc_meta More.full_store ->
                         is_Some (kg More.full_store !! section_id m)).
  { intros m Hm.
    repeat (apply elem_of_cons in Hm as [->|Hm]; [eexists; vm_compute; reflexivity|]).
    now apply elem_of_nil in Hm. }
  do 5 (split; [assumption|]).
  exact (@search_returns_on_well_formed_store Q Demo.externals More.full_store
           "spill" 3 _ H1 H2 H3 H4 H5).
Defined.

Lemma search_beyond_table_witness :
  faiss_search More.stale_store "spill" 2 = Ok [(9 # 10, 0%Z); (1 # 2, 7%Z)]%Q /\
  ((1 # 2)%Q, 7%Z) ∈ [(9 # 10, 0%Z); (1 # 2, 7%Z)]%Q /\
  (Z.of_nat (List.length (doc_meta More.stale_store)) <= 7)%Z /\
  exists e, sop_search More.stale_store (JStr "spill") (JInt 2) = Raise e /\
            kind e = IndexError.
Proof.
  split; [reflexivity|].
  split; [apply elem_of_cons; right; constructor|].
  split; [vm_compute; discriminate|].
  apply (@search_raises_on_position_beyond_table Q Demo.externals More.stale_store
           "spill" 2 [(9 # 10, 0%Z); (1 # 2, 7%Z)]%Q (1 # 2)%Q 7%Z).
  - reflexivity.
  - apply elem_of_cons; right; constructor.
  - vm_compute; discriminate.
Defined.

Lemma missing_index_file_witness :
  faiss_path_exists More.not_built = false /\
  _load_resources (F:=Q) _ _ _ (fun b => b) (fun m _ => m) More.not_built
    = inl "Indices not built. Run indexer.py first." /\
  forall lines,
    main (E:=Demo.externals) _ _ _ (fun b => b) (fun m _ => m) More.not_built lines = [].
Proof.
  split; [reflexivity|].
  apply (@missing_index_file_is_fatal Q Demo.externals _ _ _
           (fun b => b) (fun m _ => m) More.not_built).
  reflexivity.
Defined.

Lemma serving_witness :
  main (E:=Demo.externals) _ _ _ (fun b => b) (fun m _ => m) More.on_disk
    [Demo.initialize_line] <> [] /\
  faiss_path_exists More.on_disk = true /\
  exists doc_meta faiss_index bm25 kg model,
    load_doc_meta More.on_disk = inr doc_meta /\
    read_index More.on_disk = inr faiss_index /\
    load_bm25 More.on_disk = inr bm25 /\
    read_gpickle More.on_disk = inr kg /\
    load_model More.on_disk = inr model /\
    main (E:=Demo.externals) _ _ _ (fun b => b) (fun m _ => m) More.on_disk
      [Demo.initialize_line] =
      run (E:=Demo.externals)
        {| doc_meta := doc_meta; bm25_get_scores := bm25;
           faiss_search := model; kg := kg |} [Demo.initialize_line].
Proof.
  split; [vm_compute; discriminate|].
  apply (@serving_needs_every_artifact Q Demo.externals _ _ _
           (fun b => b) (fun m _ => m) More.on_disk [Demo.initialize_line]).
  vm_compute; discriminate.
Defined.
